(** * pytori: a shallow embedding of the TORI scheme, its validation and its loader

    The development follows the three source modules:
    - [pytori/utilities.py]  : [find_duplicates];
    - [pytori/elements.py]   : [TagGroup], [Tag], [Reference], [TORI] and the
                               validation methods;
    - [pytori/parse.py]      : [load_dict].

    Python values are untyped, so attribute values and loader inputs are
    modelled by one type [value] of plain data (what the YAML and TOML
    deserialisers hand to [load_dict]).  Exceptions are explicit: pure code
    returns a [result], methods of [TORI] (which mutate [_errors]) run in a
    state-and-exception monad. *)

From Stdlib Require Import String Ascii ZArith List Bool Arith Lia.
Import ListNotations.
Local Open Scope string_scope.
Local Open Scope list_scope.
Set Warnings "-register-all".

(* ================================================================= *)
(** ** Python values *)

(** Plain data: [None], booleans, integers, strings, lists and mappings with
    string keys.  Floats and dates are left out; mappings keep their
    insertion order, as Python dicts do (a list of items that repeats a key
    stands for no dict; a lookup takes the first item of the key).

    A Python [str] is a sequence of code points; a [string] here is a
    sequence of bytes, and holds the UTF-8 encoding of the [str].  The
    encoding is one to one, so [==] on two [str] is the equality of their
    bytes, and the empty [str] is the empty [string]; a sequence of bytes
    that is not valid UTF-8 stands for no [str]. *)
Inductive value : Type :=
| VNone
| VBool (b : bool)
| VInt (z : Z)
| VStr (s : string)
| VList (l : list value)
| VDict (d : list (string * value)).

(** A mapping with string keys, in insertion order. *)
Definition dict : Type := list (string * value).

(** [type(x)], as it appears in the loader's messages. *)
Inductive pytype : Type :=
| NoneType | bool_type | int_type | str_type | list_type | dict_type.

Definition type_of (v : value) : pytype :=
  match v with
  | VNone => NoneType
  | VBool _ => bool_type
  | VInt _ => int_type
  | VStr _ => str_type
  | VList _ => list_type
  | VDict _ => dict_type
  end.

(** Truth value of an object, as tested by [if x] and [not x]. *)
Definition truthy (v : value) : bool :=
  match v with
  | VNone => false
  | VBool b => b
  | VInt z => negb (z =? 0)%Z
  | VStr s => negb (s =? "")
  | VList l => negb (Nat.eqb (length l) 0)
  | VDict d => negb (Nat.eqb (length d) 0)
  end.

(** Truth value of a tuple or list object: non-empty. *)
Definition truthy_seq {A : Type} (l : list A) : bool :=
  match l with [] => false | _ :: _ => true end.

(** [==] on two sequences (lists or tuples): as long, and equal elementwise
    under the [==] of the elements. *)
Fixpoint seq_eq {A : Type} (eq : A -> A -> bool) (x y : list A) : bool :=
  match x, y with
  | [], [] => true
  | u :: x', v :: y' => eq u v && seq_eq eq x' y'
  | _, _ => false
  end.

(** [==] on plain data.  [True == 1] and [False == 0] hold in Python; two
    dicts are equal when they have as many keys and every key of the first is
    a key of the second with an equal value. *)
Fixpoint value_eq (a b : value) {struct a} : bool :=
  match a, b with
  | VNone, VNone => true
  | VBool x, VBool y => Bool.eqb x y
  | VBool x, VInt y => (Z.b2z x =? y)%Z
  | VInt x, VBool y => (x =? Z.b2z y)%Z
  | VInt x, VInt y => (x =? y)%Z
  | VStr x, VStr y => (x =? y)
  | VList x, VList y => seq_eq value_eq x y
  | VDict x, VDict y =>
      Nat.eqb (length x) (length y)
      && forallb (fun kv =>
                    existsb (fun kv' => (fst kv =? fst kv')
                                        && value_eq (snd kv) (snd kv')) y) x
  | _, _ => false
  end.

(** Whether [hash(v)] returns: lists and dicts are unhashable. *)
Definition value_hashable (v : value) : bool :=
  match v with
  | VNone | VBool _ | VInt _ | VStr _ => true
  | VList _ | VDict _ => false
  end.

(** Induction on a value, with the hypothesis for every element of a list
    and every value of a dict. *)
Fixpoint value_ind' (P : value -> Prop)
  (HNone : P VNone) (HBool : forall b, P (VBool b))
  (HInt : forall z, P (VInt z)) (HStr : forall s, P (VStr s))
  (HList : forall l, Forall P l -> P (VList l))
  (HDict : forall d, Forall (fun kv => P (snd kv)) d -> P (VDict d))
  (v : value) {struct v} : P v :=
  match v with
  | VNone => HNone
  | VBool b => HBool b
  | VInt z => HInt z
  | VStr s => HStr s
  | VList l =>
      HList l ((fix go (l : list value) : Forall P l :=
                  match l with
                  | [] => Forall_nil P
                  | x :: l' =>
                      Forall_cons x
                        (value_ind' P HNone HBool HInt HStr HList HDict x)
                        (go l')
                  end) l)
  | VDict d =>
      HDict d ((fix go (d : list (string * value))
                  : Forall (fun kv => P (snd kv)) d :=
                  match d with
                  | [] => Forall_nil _
                  | kv :: d' =>
                      Forall_cons kv
                        (value_ind' P HNone HBool HInt HStr HList HDict (snd kv))
                        (go d')
                  end) d)
  end.

(** On the values that hash, [==] is decided by the number or the string
    the value stands for. *)
Inductive hash_key : Type :=
| KNone
| KNum (z : Z)
| KStr (s : string).

Definition key_of (v : value) : hash_key :=
  match v with
  | VNone => KNone
  | VBool b => KNum (Z.b2z b)
  | VInt z => KNum z
  | VStr s => KStr s
  | VList _ | VDict _ => KNone
  end.

(** A [str] of ASCII characters only: every byte is below 128. *)
Definition is_ascii_char (c : ascii) : bool := (nat_of_ascii c <? 128)%nat.

Fixpoint is_ascii (s : string) : bool :=
  match s with
  | EmptyString => true
  | String c s' => is_ascii_char c && is_ascii s'
  end.

(** [str.lower()] on a [str] of ASCII characters: the letters [A] to [Z]
    become [a] to [z], every other character is kept.  On a [str] with other
    characters Python follows the Unicode case mapping, which is not
    reproduced: there the bytes above 127 are kept, so the result is the one
    of Python only where [is_ascii] holds.  A key with a character outside
    ASCII is in lower case none of [tag_groups], [tags] and [references],
    here as in Python. *)
Definition lower_ascii (c : ascii) : ascii :=
  let n := nat_of_ascii c in
  if (65 <=? n)%nat && (n <=? 90)%nat then ascii_of_nat (n + 32) else c.

Fixpoint lower (s : string) : string :=
  match s with
  | EmptyString => EmptyString
  | String c s' => String (lower_ascii c) (lower s')
  end.

(** In UTF-8 a code point is one byte that is no continuation byte, followed
    by its continuation bytes, the bytes [10xxxxxx] (128 to 191). *)
Definition is_continuation (c : ascii) : bool :=
  let n := nat_of_ascii c in (128 <=? n)%nat && (n <=? 191)%nat.

(** The continuation bytes that [s] starts with, and the code points after
    them, each as a one-character [str]. *)
Fixpoint code_points (s : string) : string * list value :=
  match s with
  | EmptyString => (EmptyString, [])
  | String c s' =>
      let (continuation, items) := code_points s' in
      if is_continuation c then (String c continuation, items)
      else (EmptyString, VStr (String c continuation) :: items)
  end.

(** The characters of a [str], each as a one-character [str]: Python
    iterates a [str] by code point.  (The encoding of a [str] starts with no
    continuation byte; bytes that do are kept together as a first item.) *)
Definition chars (s : string) : list value :=
  match code_points s with
  | (EmptyString, items) => items
  | (continuation, items) => VStr continuation :: items
  end.

(* ================================================================= *)
(** ** The protocol of hashable, comparable objects *)

(** What [set], [dict] and [in] use of an object: [__eq__], and whether
    [__hash__] returns.  A hash is consistent with [__eq__], so looking an
    item up in a set or a dict finds exactly the stored objects equal to
    it. *)
Class PyObject (A : Type) : Type := {
  py_eq : A -> A -> bool;
  py_hashable : A -> bool
}.

#[export] Instance PyObject_int : PyObject Z :=
  {| py_eq := Z.eqb; py_hashable := fun _ => true |}.

#[export] Instance PyObject_str : PyObject string :=
  {| py_eq := String.eqb; py_hashable := fun _ => true |}.

#[export] Instance PyObject_value : PyObject value :=
  {| py_eq := value_eq; py_hashable := value_hashable |}.

(** Tuples: equal when equal elementwise, hashable when every element is. *)
#[export] Instance PyObject_tuple {A : Type} `{PyObject A} : PyObject (list A) :=
  {| py_eq := seq_eq py_eq; py_hashable := forallb py_hashable |}.

(** [x in t] for a tuple or a list [t]: some element equals [x]; no hash is
    taken. *)
Definition tuple_contains {A : Type} `{PyObject A} (x : A) (t : list A) : bool :=
  existsb (fun e => py_eq e x) t.

(* ================================================================= *)
(** ** Exceptions *)

(** [SchemeElement.__repr__]: the class name and the value of the key
    attribute, ['{}({})'.format(cls, key)].  It is what a message shows of an
    element. *)
Inductive element_repr : Type :=
| Repr (class_name : string) (key : value).

(** Messages of [TORISchemeError], one constructor per format string of
    elements.py; the arguments are the ones given to [format]. *)
Inductive scheme_message : Type :=
| TagGroupsNotUnique (dups : list element_repr)
    (* 'Tag Groups must be unique, found duplicates: {}' *)
| TagMissingName (t : element_repr)
    (* 'Tag missing name: {}' *)
| TagMissingDescription (t : element_repr)
    (* 'Tag missing description: {}' *)
| TagsNotUnique (dups : list element_repr)
    (* 'Tags must be unique, found duplicates: {}' *)
| ReferenceMissingTitle (r : element_repr)
    (* 'Reference missing title: {}' *)
| ReferenceMissingAuthor (r : element_repr)
    (* 'Reference missing author: {}' *)
| ReferencesNotUnique (dups : list element_repr).
    (* 'References must be unique, found duplicates: {}' *)

(** Messages of [TORIParseError], one constructor per format string of
    parse.py. *)
Inductive parse_message : Type :=
| MissingTopLevelKey (k : string)
    (* 'Dict missing top-level key: {}' *)
| NotAList (name : string) (ty : pytype)
    (* '{} must be passed as a list, not type: {}' *)
| ElementNotADict (name : string) (ty : pytype) (element : value)
    (* '{} element must be passed as a dict, not type: {}. Object given: {}' *)
| TagGroupMissingKey (key : string)
    (* 'TagGroup dict missing key: {}' *)
| TagMissingKey (key : string)
    (* 'Tag dict missing key: {}' *)
| TagUndefinedGroup (tag_name : value) (tag_group : value)
    (* 'Tag {} has undefined group {}' *)
| ReferenceMissingKey (key : string)
    (* 'Reference dict missing required key: {}' *)
| ReferenceUndefinedTag (title : value) (raw_tag : value).
    (* 'Reference {} has undefined tag {}' *)

(** Why a [TypeError] was raised. *)
Inductive type_error : Type :=
| NotIterable (ty : pytype)   (* tuple(x) or a loop over x, x not iterable *)
| Unhashable.                 (* hash(x), x a list, a dict or holding one *)

Inductive exn : Type :=
| TORISchemeError (message : scheme_message)
| TORIParseError (message : parse_message)
| KeyError (key : value)
| TypeError (why : type_error).

(** The error is one of the loader's referential errors: an undefined group
    or an undefined tag. *)
Definition is_referential (e : exn) : bool :=
  match e with
  | TORIParseError (TagUndefinedGroup _ _)
  | TORIParseError (ReferenceUndefinedTag _ _) => true
  | _ => false
  end.

(** Code without side effects either returns or raises. *)
Inductive result (A : Type) : Type :=
| Ok (a : A)
| Raise (e : exn).

Arguments Ok {A} a.
Arguments Raise {A} e.

Definition bind {A B : Type} (m : result A) (k : A -> result B) : result B :=
  match m with
  | Ok a => k a
  | Raise e => Raise e
  end.

Declare Scope result_scope.
Delimit Scope result_scope with result.
Notation "x <- m ;; k" := (bind m (fun x => k))
  (at level 61, m at next level, right associativity) : result_scope.
Notation "m ;; k" := (bind m (fun _ => k))
  (at level 61, right associativity) : result_scope.
Local Open Scope result_scope.

(** [hash(x)], kept only for its failure. *)
Definition py_hash {A : Type} `{PyObject A} (x : A) : result unit :=
  if py_hashable x then Ok tt else Raise (TypeError Unhashable).

(** The elements a loop [for e in v] or [tuple(v)] goes through. *)
Definition py_iter (v : value) : result (list value) :=
  match v with
  | VList l => Ok l
  | VStr s => Ok (chars s)
  | VDict d => Ok (map (fun kv => VStr (fst kv)) d)
  | _ => Raise (TypeError (NotIterable (type_of v)))
  end.

(* ================================================================= *)
(** ** utilities.py *)

Section FindDuplicates.

Context {A : Type} `{PyObject A}.

(** [item in seen] for the set [seen], given that [item] hashes: the set
    holds an object equal to [item].  The set is kept as the list of the
    objects added to it. *)
Definition set_contains (item : A) (seen : list A) : bool :=
  existsb (fun s => py_eq s item) seen.

(** The loop of [find_duplicates], from the state it has reached. *)
Fixpoint find_duplicates_loop (dups seen x : list A) : result (list A) :=
  match x with
  | [] => Ok dups
  | item :: x' =>
      py_hash item ;;
      if negb (set_contains item seen)
      then find_duplicates_loop dups (seen ++ [item]) x'
      else find_duplicates_loop (dups ++ [item]) seen x'
  end.

Definition find_duplicates (x : list A) : result (list A) :=
  find_duplicates_loop [] [] x.

End FindDuplicates.

(* ================================================================= *)
(** ** Scheme elements (elements.py) *)

(** [SchemeElement.__eq__] compares the slots pairwise, in the order of
    [__slots__]; [SchemeElement.__hash__] hashes the tuple of the slots, so
    it returns when every slot is hashable.  Each class below lists its slots
    once and instantiates both. *)

Module TagGroup.

Record t : Type := make { name : value; description : value }.

Definition __key_attr__ : string := "name".
Definition __slots__ : list string := ["name"; "description"].

Definition __eq__ (self other : t) : bool :=
  py_eq (name self) (name other)
  && py_eq (description self) (description other).

Definition hashable (self : t) : bool :=
  py_hashable (name self) && py_hashable (description self).

Definition __repr__ (self : t) : element_repr := Repr "TagGroup" (name self).

End TagGroup.

#[export] Instance PyObject_TagGroup : PyObject TagGroup.t :=
  {| py_eq := TagGroup.__eq__; py_hashable := TagGroup.hashable |}.

Definition DEFAULT_TAG_GROUP : TagGroup.t :=
  TagGroup.make (VStr "Default") (VStr "Default Tag Group").

Module Tag.

Record t : Type :=
  make { name : value; description : value; group : TagGroup.t }.

Definition __key_attr__ : string := "name".
Definition __slots__ : list string := ["name"; "description"; "group"].

Definition __eq__ (self other : t) : bool :=
  py_eq (name self) (name other)
  && py_eq (description self) (description other)
  && py_eq (group self) (group other).

Definition hashable (self : t) : bool :=
  py_hashable (name self) && py_hashable (description self)
  && py_hashable (group self).

Definition __repr__ (self : t) : element_repr := Repr "Tag" (name self).

End Tag.

#[export] Instance PyObject_Tag : PyObject Tag.t :=
  {| py_eq := Tag.__eq__; py_hashable := Tag.hashable |}.

Module Reference.

(** [author] and [tags] are tuples. *)
Record t : Type :=
  make { title : value; author : list value; tags : list Tag.t; url : value }.

Definition __key_attr__ : string := "title".
Definition __required_slots__ : list string := ["title"; "author"; "tags"].
Definition __optional_slots__ : list string := ["url"].
Definition __slots__ : list string := __required_slots__ ++ __optional_slots__.

Definition __eq__ (self other : t) : bool :=
  py_eq (title self) (title other)
  && py_eq (author self) (author other)
  && py_eq (tags self) (tags other)
  && py_eq (url self) (url other).

Definition hashable (self : t) : bool :=
  py_hashable (title self) && py_hashable (author self)
  && py_hashable (tags self) && py_hashable (url self).

Definition __repr__ (self : t) : element_repr := Repr "Reference" (title self).

(** [Reference(title, author, url=None, tags=None)].  The [tags] argument is
    [None] (also when it is left out) or an iterable of Tags; [author] is any
    plain value.  [tuple(None)] raises a [TypeError]. *)
Definition __init__ (title author : value) (url : value)
  (tags : option (list Tag.t)) : result t :=
  author' <- (match author with
              | VStr _ => Ok [author]
              | _ => py_iter author
              end) ;;
  tags' <- (match tags with
            | Some ts => Ok ts
            | None => Raise (TypeError (NotIterable NoneType))
            end) ;;
  Ok (make title author' tags' url).

(** [add_tag] rebinds [self.tags]; the Reference after the call is
    returned. *)
Definition add_tag (self : t) (tag : Tag.t) : t :=
  if negb (tuple_contains tag (tags self))
  then make (title self) (author self) (tags self ++ [tag]) (url self)
  else self.

End Reference.

#[export] Instance PyObject_Reference : PyObject Reference.t :=
  {| py_eq := Reference.__eq__; py_hashable := Reference.hashable |}.

(** An instance of one of the three classes of [SchemeElement], with
    [type(x)] and [getattr(x, type(x).__key_attr__)]. *)
Inductive scheme_element : Type :=
| ATagGroup (g : TagGroup.t)
| ATag (t : Tag.t)
| AReference (r : Reference.t).

Inductive element_type : Type :=
| TagGroup_type | Tag_type | Reference_type.

Definition element_type_of (x : scheme_element) : element_type :=
  match x with
  | ATagGroup _ => TagGroup_type
  | ATag _ => Tag_type
  | AReference _ => Reference_type
  end.

Definition key_attr (x : scheme_element) : value :=
  match x with
  | ATagGroup g => TagGroup.name g
  | ATag t => Tag.name t
  | AReference r => Reference.title r
  end.

Module TORI.

(** [self.keys]: for each element type, the tuple of the key attributes of
    its elements. *)
Record keys_t : Type := make_keys {
  TagGroup_keys : list value;
  Tag_keys : list value;
  Reference_keys : list value
}.

Record t : Type := make {
  tag_groups : list TagGroup.t;
  tags : list Tag.t;
  references : list Reference.t;
  keys : option keys_t;
  _errors : list scheme_message
}.

Definition set_errors (errors : list scheme_message) (self : t) : t :=
  make (tag_groups self) (tags self) (references self) (keys self) errors.

Definition _set_keys (self : t) : t :=
  make (tag_groups self) (tags self) (references self)
       (Some (make_keys (map TagGroup.name (tag_groups self))
                        (map Tag.name (tags self))
                        (map Reference.title (references self))))
       (_errors self).

Definition __init__ (tag_groups : list TagGroup.t) (tags : list Tag.t)
  (references : list Reference.t) : t :=
  _set_keys (make tag_groups tags references None []).

(** A method either returns or raises, and leaves the object in a state
    ([_errors] is what the validation methods change). *)
Inductive outcome (A : Type) : Type :=
| Returned (a : A) (self : t)
| Raised (e : exn) (self : t).

Arguments Returned {A} a self.
Arguments Raised {A} e self.

Definition method (A : Type) : Type := t -> outcome A.

Definition ret {A : Type} (a : A) : method A := fun self => Returned a self.

Definition mbind {A B : Type} (m : method A) (k : A -> method B) : method B :=
  fun self =>
    match m self with
    | Returned a self' => k a self'
    | Raised e self' => Raised e self'
    end.

Definition get : method t := fun self => Returned self self.

Definition lift {A : Type} (r : result A) : method A :=
  fun self =>
    match r with
    | Ok a => Returned a self
    | Raise e => Raised e self
    end.

Declare Scope method_scope.
Delimit Scope method_scope with method.
Notation "x <- m ;; k" := (mbind m (fun x => k))
  (at level 61, m at next level, right associativity) : method_scope.
Notation "m ;; k" := (mbind m (fun _ => k))
  (at level 61, right associativity) : method_scope.
Local Open Scope method_scope.

Definition _clear_errors : method unit :=
  fun self => Returned tt (set_errors [] self).

(** [collect] defaults to [False]: a call that does not pass it raises. *)
Definition collect_default : bool := false.

Definition _raise_error (message : scheme_message) (collect : bool)
  : method unit :=
  fun self =>
    if collect
    then Returned tt (set_errors (_errors self ++ [message]) self)
    else Raised (TORISchemeError message) self.

Definition validate_tag_groups (collect_errors : bool) : method bool :=
  self <- get ;;
  dups <- lift (find_duplicates (tag_groups self)) ;;
  if truthy_seq dups
  then _raise_error (TagGroupsNotUnique (map TagGroup.__repr__ dups))
                    collect_errors ;;
       ret false
  else ret true.

(** The attribute loop of [validate_tags]; [valid] is the local variable. *)
Fixpoint check_tag_attributes (ts : list Tag.t) (valid : bool) : method bool :=
  match ts with
  | [] => ret valid
  | t :: ts' =>
      valid <- (if negb (truthy (Tag.name t))
                then _raise_error (TagMissingName (Tag.__repr__ t))
                                  collect_default ;;
                     ret false
                else ret valid) ;;
      valid <- (if negb (truthy (Tag.description t))
                then _raise_error (TagMissingDescription (Tag.__repr__ t))
                                  collect_default ;;
                     ret false
                else ret valid) ;;
      check_tag_attributes ts' valid
  end.

Definition validate_tags (collect_errors : bool) : method bool :=
  self <- get ;;
  valid <- check_tag_attributes (tags self) true ;;
  dups <- lift (find_duplicates (tags self)) ;;
  if truthy_seq dups
  then _raise_error (TagsNotUnique (map Tag.__repr__ dups)) collect_errors ;;
       ret false
  else ret valid.

(** The attribute loop of [validate_references]. *)
Fixpoint check_reference_attributes (rs : list Reference.t) (valid : bool)
  : method bool :=
  match rs with
  | [] => ret valid
  | r :: rs' =>
      valid <- (if negb (truthy (Reference.title r))
                then _raise_error (ReferenceMissingTitle (Reference.__repr__ r))
                                  collect_default ;;
                     ret false
                else ret valid) ;;
      valid <- (if negb (truthy_seq (Reference.author r))
                then _raise_error (ReferenceMissingAuthor (Reference.__repr__ r))
                                  collect_default ;;
                     ret false
                else ret valid) ;;
      check_reference_attributes rs' valid
  end.

Definition validate_references (collect_errors : bool) : method bool :=
  self <- get ;;
  valid <- check_reference_attributes (references self) true ;;
  dups <- lift (find_duplicates (references self)) ;;
  if truthy_seq dups
  then _raise_error (ReferencesNotUnique (map Reference.__repr__ dups))
                    collect_errors ;;
       ret false
  else ret valid.

(** What [validate] returns: a bool, or the collected messages. *)
Inductive validate_result : Type :=
| Valid (valid : bool)
| Errors (errors : list scheme_message).

Definition validate (collect_errors : bool) : method validate_result :=
  _clear_errors ;;
  valid_tag_groups <- validate_tag_groups collect_errors ;;
  valid_tags <- validate_tags collect_errors ;;
  valid_references <- validate_references collect_errors ;;
  let valid := forallb (fun b : bool => b)
                 [valid_tag_groups; valid_tags; valid_references] in
  self <- get ;;
  if collect_errors then ret (Errors (_errors self)) else ret (Valid valid).

(** [self.keys[x_type]]. *)
Definition keys_of (ks : keys_t) (x_type : element_type) : list value :=
  match x_type with
  | TagGroup_type => TagGroup_keys ks
  | Tag_type => Tag_keys ks
  | Reference_type => Reference_keys ks
  end.

(** [___contains__(x)] for a scheme element [x] (any other object makes it
    raise [ValueError]).  It answers [None] here when [self.keys] is [None],
    where subscripting raises; [__init__] sets the keys. *)
Definition ___contains__ (self : t) (x : scheme_element) : option bool :=
  match keys self with
  | Some ks => Some (tuple_contains (key_attr x) (keys_of ks (element_type_of x)))
  | None => None
  end.

(** The object as a method leaves it. *)
Definition state_of {A : Type} (o : outcome A) : t :=
  match o with
  | Returned _ self => self
  | Raised _ self => self
  end.

End TORI.

(* ================================================================= *)
(** ** Dict objects *)

(** A dict is kept as its items in insertion order; keys are compared with
    [__eq__].  Storing under a key that is present replaces the value and
    keeps the place of the key. *)
Section Dicts.

Context {K V : Type} `{PyObject K}.

Fixpoint dict_lookup (k : K) (d : list (K * V)) : option V :=
  match d with
  | [] => None
  | (k', v) :: d' => if py_eq k' k then Some v else dict_lookup k d'
  end.

Fixpoint dict_store (k : K) (v : V) (d : list (K * V)) : list (K * V) :=
  match d with
  | [] => [(k, v)]
  | (k', v') :: d' =>
      if py_eq k' k then (k', v) :: d' else (k', v') :: dict_store k v d'
  end.

(** [k in d]: hashes [k]. *)
Definition contains (k : K) (d : list (K * V)) : result bool :=
  py_hash k ;;
  Ok (match dict_lookup k d with Some _ => true | None => false end).

End Dicts.

(** [d[k]] for a string key. *)
Definition getitem {V : Type} (k : string) (d : list (string * V)) : result V :=
  match dict_lookup k d with
  | Some v => Ok v
  | None => Raise (KeyError (VStr k))
  end.

(** [d[k]] for a key that is any value. *)
Definition getitem_value {V : Type} (k : value) (d : list (value * V))
  : result V :=
  py_hash k ;;
  match dict_lookup k d with
  | Some v => Ok v
  | None => Raise (KeyError k)
  end.

(** [{key(x): x for x in l}], continued from the dict [d]. *)
Fixpoint dict_by {V : Type} (key : V -> value) (l : list V)
  (d : list (value * V)) : result (list (value * V)) :=
  match l with
  | [] => Ok d
  | x :: l' => py_hash (key x) ;; dict_by key l' (dict_store (key x) x d)
  end.

(* ================================================================= *)
(** ** parse.py *)

Module TORIDictKeys.
Definition TagGroups : string := "tag_groups".
Definition Tags : string := "tags".
Definition References : string := "references".
End TORIDictKeys.

(** [{k.lower(): k for k in tori_dict.keys()}]. *)
Definition key_map_of (tori_dict : dict) : list (string * string) :=
  fold_left (fun key_map k => dict_store (lower k) k key_map)
            (map fst tori_dict) [].

(** The loop that checks the three top-level keys. *)
Fixpoint check_top_level (ks : list string) (key_map : list (string * string))
  : result unit :=
  match ks with
  | [] => Ok tt
  | k :: ks' =>
      match dict_lookup k key_map with
      | None => Raise (TORIParseError (MissingTopLevelKey k))
      | Some _ => check_top_level ks' key_map
      end
  end.

(** [tori_dict[key_map[key]]]. *)
Definition top_level_value (key : string) (key_map : list (string * string))
  (tori_dict : dict) : result value :=
  k <- getitem key key_map ;;
  getitem k tori_dict.

(** The inner loop [for element in l]: every element is a dict. *)
Fixpoint check_elements (name : string) (l : list value) : result (list dict) :=
  match l with
  | [] => Ok []
  | element :: l' =>
      match element with
      | VDict d => ds <- check_elements name l' ;; Ok (d :: ds)
      | _ => Raise (TORIParseError
                      (ElementNotADict name (type_of element) element))
      end
  end.

(** One round of the loop over the three top-level values.  The message of
    the list check formats [type(tag_group_dicts)] whatever [l] is. *)
Definition check_list (name : string) (tag_group_dicts l : value)
  : result (list dict) :=
  match l with
  | VList elements => check_elements name elements
  | _ => Raise (TORIParseError (NotAList name (type_of tag_group_dicts)))
  end.

(** [for key in slots: if key not in d: raise ...]. *)
Fixpoint require_keys (missing : string -> parse_message) (slots : list string)
  (d : dict) : result unit :=
  match slots with
  | [] => Ok tt
  | key :: slots' =>
      match dict_lookup key d with
      | None => Raise (TORIParseError (missing key))
      | Some _ => require_keys missing slots' d
      end
  end.

(** [{slot: d[slot] for slot in slots}], continued from [kwargs]. *)
Fixpoint select_slots (slots : list string) (d : dict) (kwargs : dict)
  : result dict :=
  match slots with
  | [] => Ok kwargs
  | slot :: slots' =>
      v <- getitem slot d ;;
      select_slots slots' d (dict_store slot v kwargs)
  end.

(** The loop that builds the Tag Groups, [tag_groups] being the list built
    so far. *)
Fixpoint build_tag_groups (tag_group_dicts : list dict)
  (tag_groups : list TagGroup.t) : result (list TagGroup.t) :=
  match tag_group_dicts with
  | [] => Ok tag_groups
  | tag_group_dict :: rest =>
      require_keys TagGroupMissingKey TagGroup.__slots__ tag_group_dict ;;
      kwargs <- select_slots TagGroup.__slots__ tag_group_dict [] ;;
      name <- getitem "name" kwargs ;;
      description <- getitem "description" kwargs ;;
      build_tag_groups rest (tag_groups ++ [TagGroup.make name description])
  end.

(** The loop that builds the Tags. *)
Fixpoint build_tags (tag_group_map : list (value * TagGroup.t))
  (tag_dicts : list dict) (tags : list Tag.t) : result (list Tag.t) :=
  match tag_dicts with
  | [] => Ok tags
  | tag_dict :: rest =>
      require_keys TagMissingKey Tag.__slots__ tag_dict ;;
      tag_group <- getitem "group" tag_dict ;;
      known <- contains tag_group tag_group_map ;;
      (if negb known
       then name <- getitem "name" tag_dict ;;
            Raise (TORIParseError (TagUndefinedGroup name tag_group))
       else Ok tt) ;;
      kwargs <- select_slots Tag.__slots__ tag_dict [] ;;
      group <- getitem_value tag_group tag_group_map ;;
      name <- getitem "name" kwargs ;;
      description <- getitem "description" kwargs ;;
      build_tags tag_group_map rest (tags ++ [Tag.make name description group])
  end.

(** The loop that resolves the tag names of one reference. *)
Fixpoint resolve_tags (tag_map : list (value * Tag.t)) (reference_dict : dict)
  (raw_tags : list value) (reference_tags : list Tag.t) : result (list Tag.t) :=
  match raw_tags with
  | [] => Ok reference_tags
  | raw_tag :: rest =>
      known <- contains raw_tag tag_map ;;
      (if negb known
       then title <- getitem "title" reference_dict ;;
            Raise (TORIParseError (ReferenceUndefinedTag title raw_tag))
       else Ok tt) ;;
      tag <- getitem_value raw_tag tag_map ;;
      resolve_tags tag_map reference_dict rest (reference_tags ++ [tag])
  end.

(** The loop that builds the References. *)
Fixpoint build_references (tag_map : list (value * Tag.t))
  (reference_dicts : list dict) (references : list Reference.t)
  : result (list Reference.t) :=
  match reference_dicts with
  | [] => Ok references
  | reference_dict :: rest =>
      require_keys ReferenceMissingKey Reference.__required_slots__
                   reference_dict ;;
      raw_tags <- getitem "tags" reference_dict ;;
      raw_tags <- py_iter raw_tags ;;
      reference_tags <- resolve_tags tag_map reference_dict raw_tags [] ;;
      kwargs <- select_slots Reference.__slots__ reference_dict [] ;;
      title <- getitem "title" kwargs ;;
      author <- getitem "author" kwargs ;;
      url <- getitem "url" kwargs ;;
      reference <- Reference.__init__ title author url (Some reference_tags) ;;
      build_references tag_map rest (references ++ [reference])
  end.

(** The first part of [load_dict]: the three top-level values are found
    whatever the case of their keys, and each is a list of dicts. *)
Definition top_level_lists (tori_dict : dict)
  : result (list dict * list dict * list dict) :=
  let key_map := key_map_of tori_dict in
  check_top_level [TORIDictKeys.TagGroups; TORIDictKeys.Tags;
                   TORIDictKeys.References] key_map ;;
  tag_group_dicts <- top_level_value TORIDictKeys.TagGroups key_map tori_dict ;;
  tag_dicts <- top_level_value TORIDictKeys.Tags key_map tori_dict ;;
  reference_dicts <- top_level_value TORIDictKeys.References key_map tori_dict ;;
  tag_group_list <- check_list "Tag Groups" tag_group_dicts tag_group_dicts ;;
  tag_list <- check_list "Tags" tag_group_dicts tag_dicts ;;
  reference_list <- check_list "References" tag_group_dicts reference_dicts ;;
  Ok (tag_group_list, tag_list, reference_list).

Definition load_dict (tori_dict : dict) : result TORI.t :=
  lists <- top_level_lists tori_dict ;;
  let '(tag_group_dicts, tag_dicts, reference_dicts) := lists in
  tag_groups <- build_tag_groups tag_group_dicts [DEFAULT_TAG_GROUP] ;;
  tag_group_map <- dict_by TagGroup.name tag_groups [] ;;
  tags <- build_tags tag_group_map tag_dicts [] ;;
  tag_map <- dict_by Tag.name tags [] ;;
  references <- build_references tag_map reference_dicts [] ;;
  Ok (TORI.__init__ tag_groups tags references).

(** [d.update(other)]: every item of [other] is stored in [d], in order. *)
Definition dict_update (d other : dict) : dict :=
  fold_left (fun acc kv => dict_store (fst kv) (snd kv) acc) other d.

(** [load_yaml] and [load_toml] once each file is read and deserialised:
    [file_results] are the mappings the files hold, in the order of the
    files.  They are merged with [update] into one mapping, from the empty
    one, and the merged mapping is loaded. *)
Definition merge_files (file_results : list dict) : dict :=
  fold_left dict_update file_results [].

Definition load_files (file_results : list dict) : result TORI.t :=
  load_dict (merge_files file_results).

(* ================================================================= *)
(** ** Vocabulary of the statements *)

(** [__eq__] is an equivalence on the objects that hash: this is what Python
    asks of a class that defines [__eq__] and [__hash__]. *)
Class PyLawful (A : Type) `{PyObject A} : Prop := {
  py_eq_refl : forall x : A, py_hashable x = true -> py_eq x x = true;
  py_eq_sym : forall x y : A,
      py_hashable x = true -> py_hashable y = true -> py_eq x y = py_eq y x;
  py_eq_trans : forall x y z : A,
      py_hashable x = true -> py_hashable y = true -> py_hashable z = true ->
      py_eq x y = true -> py_eq y z = true -> py_eq x z = true
}.

Section Sequences.

Context {A : Type} `{PyObject A}.

(** No two places of [S] hold equal elements. *)
Definition pairwise_distinct (S : list A) : Prop :=
  forall i j x y,
    i <> j -> nth_error S i = Some x -> nth_error S j = Some y ->
    py_eq x y = false.

(** How many elements of [S] are equal to [x]. *)
Definition occurrences (x : A) (S : list A) : nat :=
  length (filter (fun y => py_eq y x) S).

(** The elements of [S] that have an equal element at an earlier place, in
    the order of [S]: every occurrence of an element but its first. *)
Definition repeats (S : list A) : list A :=
  map snd
      (filter (fun jx => tuple_contains (snd jx) (firstn (fst jx) S))
              (combine (seq 0 (length S)) S)).

(** The same, for the elements of [x] when [before] precedes them. *)
Fixpoint repeats_after (before x : list A) : list A :=
  match x with
  | [] => []
  | item :: x' =>
      if tuple_contains item before
      then item :: repeats_after (before ++ [item]) x'
      else repeats_after (before ++ [item]) x'
  end.

(** Following the specification's words: the elements that occur more than
    once, each reported once, at its second occurrence.  [reported] holds
    what has been reported so far. *)
Fixpoint duplicates_once_after (before reported x : list A) : list A :=
  match x with
  | [] => []
  | item :: x' =>
      if tuple_contains item before && negb (tuple_contains item reported)
      then item :: duplicates_once_after (before ++ [item])
                                         (reported ++ [item]) x'
      else duplicates_once_after (before ++ [item]) reported x'
  end.

Definition duplicates_once (S : list A) : list A :=
  duplicates_once_after [] [] S.

(** The set [seen] stands for the items [before]: it holds a part of them,
    and an object equal to each of them. *)
Definition stands_for (seen before : list A) : Prop :=
  (forall s, In s seen -> In s before)
  /\ (forall y, py_hashable y = true ->
                tuple_contains y before = true -> set_contains y seen = true).

(** Two places of [S] hold equal elements. *)
Definition has_duplicates (S : list A) : Prop :=
  exists i j x y,
    i <> j /\ nth_error S i = Some x /\ nth_error S j = Some y
    /\ py_eq x y = true.

End Sequences.

(** A tag that [validate_tags] reports: its name or its description is
    empty (or any other false value). *)
Definition tag_lacks_attribute (t : Tag.t) : bool :=
  negb (truthy (Tag.name t)) || negb (truthy (Tag.description t)).

(** A reference that [validate_references] reports: its title is empty or
    it has no author. *)
Definition reference_lacks_attribute (r : Reference.t) : bool :=
  negb (truthy (Reference.title r)) || negb (truthy_seq (Reference.author r)).

(** The message of a uniqueness check, when there are duplicates. *)
Definition uniqueness_errors {A : Type} (dups : list A)
  (message : scheme_message) : list scheme_message :=
  if truthy_seq dups then [message] else [].

(** The catalog of the specification's test: one duplicated tag group, one
    tag without a description, one duplicated reference. *)
Definition flawed_catalog : TORI.t :=
  let g := TagGroup.make (VStr "g") (VStr "a group") in
  let t := Tag.make (VStr "t") (VStr "") g in
  let r := Reference.make (VStr "r") [VStr "a"] [t] VNone in
  TORI.__init__ [g; g] [t] [r; r].

(** An index holds elements of the list it was built from, each under a key
    equal to its own. *)
Definition index_of {V : Type} (key : V -> value) (universe : list V)
  (d : list (value * V)) : Prop :=
  forall k v,
    In (k, v) d ->
    In v universe /\ py_hashable k = true /\ py_hashable (key v) = true
    /\ py_eq k (key v) = true.

(** The tag-group index that [load_dict] builds from the tag-group dicts of
    the input: the default group and the groups of the input, by name. *)
Definition tag_group_index (tag_group_dicts : list dict)
  : result (list (value * TagGroup.t)) :=
  tag_groups <- build_tag_groups tag_group_dicts [DEFAULT_TAG_GROUP] ;;
  dict_by TagGroup.name tag_groups [].

(** The tag index that [load_dict] builds: the tags of the input, by name. *)
Definition tag_index (tag_group_dicts tag_dicts : list dict)
  : result (list (value * Tag.t)) :=
  tag_group_map <- tag_group_index tag_group_dicts ;;
  tags <- build_tags tag_group_map tag_dicts [] ;;
  dict_by Tag.name tags [].

(** The [group] of a tag dict is the name of one of the tag groups. *)
Definition group_resolved (tag_groups : list TagGroup.t) (tag_dict : dict)
  : Prop :=
  exists tag_group g,
    dict_lookup "group" tag_dict = Some tag_group
    /\ In g tag_groups /\ py_eq (TagGroup.name g) tag_group = true.

(** Every name that the [tags] of a reference dict lists is the name of one
    of the tags. *)
Definition tags_resolved (tags : list Tag.t) (reference_dict : dict) : Prop :=
  exists raw_tags items,
    dict_lookup "tags" reference_dict = Some raw_tags
    /\ py_iter raw_tags = Ok items
    /\ Forall (fun raw_tag =>
                 exists t, In t tags /\ py_eq (Tag.name t) raw_tag = true)
              items.

(** An input mapping whose only tag names a group that is not defined. *)
Definition mapping_with_undefined_group : dict :=
  [("tag_groups",
    VList [VDict [("name", VStr "g"); ("description", VStr "a group")]]);
   ("tags",
    VList [VDict [("name", VStr "t"); ("description", VStr "a tag");
                  ("group", VStr "nowhere")]]);
   ("references", VList [])].

(** An input mapping whose only reference lists a tag that is not
    defined. *)
Definition mapping_with_undefined_tag : dict :=
  [("tag_groups", VList []);
   ("tags",
    VList [VDict [("name", VStr "t"); ("description", VStr "a tag");
                  ("group", VStr "Default")]]);
   ("references",
    VList [VDict [("title", VStr "r"); ("author", VStr "a");
                  ("tags", VList [VStr "t"; VStr "missing"]);
                  ("url", VNone)]])].

(** An input mapping whose only reference has its three required keys, no
    tag to resolve, and no [url]. *)
Definition mapping_without_url : dict :=
  [("tag_groups", VList []);
   ("tags", VList []);
   ("references",
    VList [VDict [("title", VStr "r"); ("author", VStr "a");
                  ("tags", VList [])]])].

(** An input mapping whose first tag lacks its description and whose second
    tag names a group that is not defined. *)
Definition mapping_with_two_flaws : dict :=
  [("tag_groups", VList []);
   ("tags",
    VList [VDict [("name", VStr "a"); ("group", VStr "Default")];
           VDict [("name", VStr "b"); ("description", VStr "d");
                  ("group", VStr "nowhere")]]);
   ("references", VList [])].


(** A well-formed input mapping: one tag group, one tag in it, one reference
    with that tag. *)
Definition sample_mapping : dict :=
  [("tag_groups",
    VList [VDict [("name", VStr "g"); ("description", VStr "a group")]]);
   ("tags",
    VList [VDict [("name", VStr "t"); ("description", VStr "a tag");
                  ("group", VStr "g")]]);
   ("references",
    VList [VDict [("title", VStr "r"); ("author", VStr "a");
                  ("tags", VList [VStr "t"]); ("url", VNone)]])].

(** The catalog that [load_dict] builds from [sample_mapping]. *)
Definition sample_catalog : TORI.t :=
  let g := TagGroup.make (VStr "g") (VStr "a group") in
  let t := Tag.make (VStr "t") (VStr "a tag") g in
  let r := Reference.make (VStr "r") [VStr "a"] [t] VNone in
  TORI.__init__ [DEFAULT_TAG_GROUP; g] [t] [r].

(** A sequence that passes a uniqueness check: its elements hash and no two
    are equal. *)
Definition unique {A : Type} `{PyObject A} (S : list A) : Prop :=
  forallb py_hashable S = true /\ pairwise_distinct S.

(** A catalog that breaks none of the rules of [validate]. *)
Definition valid_catalog (c : TORI.t) : Prop :=
  unique (TORI.tag_groups c)
  /\ existsb tag_lacks_attribute (TORI.tags c) = false
  /\ unique (TORI.tags c)
  /\ existsb reference_lacks_attribute (TORI.references c) = false
  /\ unique (TORI.references c).

(** A catalog with a duplicated tag group and a duplicated reference, whose
    tag has its name and its description. *)
Definition catalog_with_duplicates : TORI.t :=
  let g := TagGroup.make (VStr "g") (VStr "a group") in
  let t := Tag.make (VStr "t") (VStr "a tag") g in
  let r := Reference.make (VStr "r") [VStr "a"] [t] VNone in
  TORI.__init__ [g; g] [t] [r; r].

(** A catalog whose tag group has a list for description, as YAML gives
    for a sequence. *)
Definition catalog_with_list_description : TORI.t :=
  TORI.__init__ [TagGroup.make (VStr "g") (VList [VStr "a"; VStr "b"])] [] [].

(** A method that changes nothing of the object but [_errors]. *)
Definition changes_only_errors {A : Type} (m : TORI.method A) : Prop :=
  forall self, exists errors,
    TORI.state_of (m self) = TORI.set_errors errors self.

(** The error that the attribute loop of [validate_tags] raises for a tag:
    the name is looked at first. *)
Definition tag_attribute_error (t : Tag.t) : exn :=
  TORISchemeError
    (if negb (truthy (Tag.name t))
     then TagMissingName (Tag.__repr__ t)
     else TagMissingDescription (Tag.__repr__ t)).

(** A catalog whose second tag has no name and whose third has no
    description, and whose second reference has no author. *)
Definition catalog_lacking_attributes : TORI.t :=
  let g := TagGroup.make (VStr "g") (VStr "a group") in
  let t := Tag.make (VStr "t") (VStr "a tag") g in
  let u := Tag.make (VStr "") (VStr "nameless") g in
  let v := Tag.make (VStr "v") VNone g in
  let r := Reference.make (VStr "r") [VStr "a"] [t] VNone in
  let q := Reference.make (VStr "q") [] [t] VNone in
  TORI.__init__ [g] [t; u; v] [r; q].

(** The error that the attribute loop of [validate_references] raises for a
    reference: the title is looked at first. *)
Definition reference_attribute_error (r : Reference.t) : exn :=
  TORISchemeError
    (if negb (truthy (Reference.title r))
     then ReferenceMissingTitle (Reference.__repr__ r)
     else ReferenceMissingAuthor (Reference.__repr__ r)).

(** The elements of a catalog. *)
Definition elements (c : TORI.t) : list scheme_element :=
  map ATagGroup (TORI.tag_groups c) ++ map ATag (TORI.tags c)
  ++ map AReference (TORI.references c).

(** An element of the catalog has the type and a key equal to the key of
    [x]. *)
Definition key_known (c : TORI.t) (x : scheme_element) : Prop :=
  exists y,
    In y (elements c)
    /\ element_type_of y = element_type_of x
    /\ py_eq (key_attr y) (key_attr x) = true.

(** Some key of the mapping is [k] when put in lower case. *)
Definition has_top_level_key (k : string) (tori_dict : dict) : bool :=
  existsb (fun k' => lower k' =? k) (map fst tori_dict).

(** The three keys that [load_dict] asks for, in the order it checks
    them. *)
Definition top_level_keys : list string :=
  [TORIDictKeys.TagGroups; TORIDictKeys.Tags; TORIDictKeys.References].

Definition is_list (v : value) : bool :=
  match v with VList _ => true | _ => false end.

Definition is_dict (v : value) : bool :=
  match v with VDict _ => true | _ => false end.

(** The strings of a list, one after the other. *)
Fixpoint str_join (items : list value) : string :=
  match items with
  | [] => EmptyString
  | VStr s :: items' => s ++ str_join items'
  | _ :: items' => str_join items'
  end.

(** Every key of the mapping is an ASCII [str]. *)
Definition ascii_keys (tori_dict : dict) : bool :=
  forallb is_ascii (map fst tori_dict).

(** A mapping whose tag has a name of one character outside ASCII, and
    whose reference gives its tags as a [str], the name of that tag. *)
Definition mapping_with_accented_tag : dict :=
  [("tag_groups", VList []);
   ("tags",
    VList [VDict [("name", VStr "é"); ("description", VStr "an accent");
                  ("group", VStr "Default")]]);
   ("references",
    VList [VDict [("title", VStr "r"); ("author", VStr "a");
                  ("tags", VStr "é"); ("url", VNone)]])].

Definition catalog_with_accented_tag : TORI.t :=
  let t := Tag.make (VStr "é") (VStr "an accent") DEFAULT_TAG_GROUP in
  let r := Reference.make (VStr "r") [VStr "a"] [t] VNone in
  TORI.__init__ [DEFAULT_TAG_GROUP] [t] [r].

(** A mapping with the three keys in other cases, and one more key. *)
Definition mapping_in_other_case : dict :=
  [("Tag_Groups", VList []);
   ("TAGS", VList []);
   ("comment", VStr "not read");
   ("References", VList [])].

(** A mapping whose tags are a string, not a list. *)
Definition mapping_with_string_tags : dict :=
  [("tag_groups", VList []);
   ("tags", VStr "t");
   ("references", VList [])].

(** The first of the slots that is not a key of the dict. *)
Definition first_missing (slots : list string) (d : dict) : option string :=
  find (fun key => match dict_lookup key d with
                   | Some _ => false
                   | None => true
                   end) slots.

(** The authors that [Reference.__init__] keeps for an [author] argument: a
    string alone, or the elements of an iterable. *)
Definition authors_of (author : value) : result (list value) :=
  match author with
  | VStr _ => Ok [author]
  | _ => py_iter author
  end.

(** The last element of a list whose key equals [k]: what an index built
    by key holds for [k]. *)
Definition last_with_key {V : Type} (key : V -> value) (k : value)
  (l : list V) : option V :=
  find (fun x => py_eq (key x) k) (rev l).

(** The tag group that a tag dict gets in a catalog: its name and
    description are those of the dict. *)
Definition tag_group_from (d : dict) (g : TagGroup.t) : Prop :=
  dict_lookup "name" d = Some (TagGroup.name g)
  /\ dict_lookup "description" d = Some (TagGroup.description g).

(** The tag that a tag dict gets: its name and description are those of
    the dict, and its group is the last of [tag_groups] that has the name
    the dict gives for [group]. *)
Definition tag_from (tag_groups : list TagGroup.t) (d : dict) (t : Tag.t)
  : Prop :=
  dict_lookup "name" d = Some (Tag.name t)
  /\ dict_lookup "description" d = Some (Tag.description t)
  /\ exists tag_group,
       dict_lookup "group" d = Some tag_group
       /\ last_with_key TagGroup.name tag_group tag_groups
          = Some (Tag.group t).

(** The reference that a reference dict gets: title and url are those of
    the dict, the authors are those of its [author], and its tags are, for
    each name of its [tags], the last of [tags] that has the name. *)
Definition reference_from (tags : list Tag.t) (d : dict) (r : Reference.t)
  : Prop :=
  dict_lookup "title" d = Some (Reference.title r)
  /\ dict_lookup "url" d = Some (Reference.url r)
  /\ (exists author,
         dict_lookup "author" d = Some author
         /\ authors_of author = Ok (Reference.author r))
  /\ exists raw_tags items,
       dict_lookup "tags" d = Some raw_tags
       /\ py_iter raw_tags = Ok items
       /\ Forall2 (fun raw_tag t =>
                     last_with_key Tag.name raw_tag tags = Some t)
                  items (Reference.tags r).

(** An input mapping in which a tag group lacks its description, one in
    which a tag lacks its name and its group, one in which a reference lacks
    its author. *)
Definition mapping_with_incomplete_group : dict :=
  [("tag_groups",
    VList [VDict [("name", VStr "g"); ("description", VStr "a group")];
           VDict [("name", VStr "h")]]);
   ("tags", VList []);
   ("references", VList [])].

Definition mapping_with_incomplete_tag : dict :=
  [("tag_groups", VList []);
   ("tags", VList [VDict [("description", VStr "a tag")]]);
   ("references", VList [])].

Definition mapping_with_incomplete_reference : dict :=
  [("tag_groups", VList []);
   ("tags", VList []);
   ("references",
    VList [VDict [("title", VStr "r"); ("tags", VList []); ("url", VNone)]])].

(** Two dicts give the same for every one of the slots. *)
Definition agree_on (slots : list string) (d d' : dict) : Prop :=
  forall key, In key slots -> dict_lookup key d = dict_lookup key d'.

(** [sample_mapping] with keys that the scheme does not know. *)
Definition sample_mapping_with_notes : dict :=
  [("tag_groups",
    VList [VDict [("name", VStr "g"); ("description", VStr "a group");
                  ("colour", VStr "red")]]);
   ("tags",
    VList [VDict [("note", VInt 1); ("name", VStr "t");
                  ("description", VStr "a tag"); ("group", VStr "g")]]);
   ("references",
    VList [VDict [("title", VStr "r"); ("author", VStr "a");
                  ("tags", VList [VStr "t"]); ("url", VNone);
                  ("year", VInt 1999)]])].

(** The mappings of two files: the second has [tags] again. *)
Definition first_file : dict :=
  [("tag_groups", VList []);
   ("tags", VList [VDict [("name", VStr "t"); ("description", VStr "a tag");
                          ("group", VStr "Default")]]);
   ("references", VList [])].

Definition second_file : dict :=
  [("tags", VList [])].

(* ================================================================= *)
(** * Properties *)

(** ** Equality of plain data *)

Lemma seq_eq_refl_on {A : Type} (eq : A -> A -> bool) (l : list A) :
  Forall (fun x => eq x x = true) l -> seq_eq eq l l = true.
Proof.
  induction 1 as [|x l Hx _ IH]; simpl; [reflexivity|].
  now rewrite Hx, IH.
Qed.

(** [v == v] holds for every plain value. *)
Lemma value_eq_refl (v : value) : value_eq v v = true.
Proof.
  induction v as [| b | z | s | l IH | d IH] using value_ind'; simpl.
  - reflexivity.
  - now destruct b.
  - apply Z.eqb_refl.
  - apply String.eqb_refl.
  - now apply seq_eq_refl_on.
  - rewrite Nat.eqb_refl; simpl.
    apply forallb_forall. intros kv Hin.
    apply existsb_exists. exists kv. split; [assumption|].
    rewrite String.eqb_refl; simpl.
    rewrite Forall_forall in IH. now apply IH.
Qed.

Lemma value_eq_key (x y : value) :
  value_hashable x = true -> value_hashable y = true ->
  (value_eq x y = true <-> key_of x = key_of y).
Proof.
  destruct x as [| a | a | a | |], y as [| b | b | b | |];
    cbn [value_eq value_hashable key_of];
    intros Hx Hy; try discriminate; split; intros E;
    try reflexivity; try discriminate.
  - apply Bool.eqb_prop in E. now subst.
  - injection E as E. destruct a, b; try reflexivity; discriminate.
  - apply Z.eqb_eq in E. now subst.
  - injection E as E. now apply Z.eqb_eq.
  - apply Z.eqb_eq in E. now subst.
  - injection E as E. now apply Z.eqb_eq.
  - apply Z.eqb_eq in E. now subst.
  - injection E as E. now apply Z.eqb_eq.
  - apply String.eqb_eq in E. now subst.
  - injection E as E. now apply String.eqb_eq.
Qed.

(** ** The classes of the scheme follow the protocol *)

Ltac chain_py_eq :=
  match goal with
  | H1 : py_eq ?a ?b = true, H2 : py_eq ?b ?c = true |- py_eq ?a ?c = true =>
      apply (py_eq_trans a b c); assumption
  end.

Ltac split_andb :=
  repeat match goal with
         | H : _ && _ = true |- _ =>
             let H1 := fresh H in
             apply andb_prop in H; destruct H as [H H1]
         end.

#[export] Instance PyLawful_int : PyLawful Z.
Proof.
  split; cbn.
  - intros x _. apply Z.eqb_refl.
  - intros x y _ _. apply Z.eqb_sym.
  - intros x y z _ _ _ Hxy Hyz.
    apply Z.eqb_eq in Hxy, Hyz. subst. apply Z.eqb_refl.
Qed.

#[export] Instance PyLawful_str : PyLawful string.
Proof.
  split; cbn.
  - intros x _. apply String.eqb_refl.
  - intros x y _ _. apply String.eqb_sym.
  - intros x y z _ _ _ Hxy Hyz.
    apply String.eqb_eq in Hxy, Hyz. subst. apply String.eqb_refl.
Qed.

#[export] Instance PyLawful_value : PyLawful value.
Proof.
  split; cbn.
  - intros x _. apply value_eq_refl.
  - intros x y Hx Hy. apply Bool.eq_iff_eq_true.
    rewrite !value_eq_key by assumption. split; congruence.
  - intros x y z Hx Hy Hz.
    rewrite !value_eq_key by assumption. congruence.
Qed.

#[export] Instance PyLawful_tuple {A : Type} `{PyLawful A} : PyLawful (list A).
Proof.
  split; cbn.
  - induction x as [|a x IH]; cbn; intros Hx; [reflexivity|].
    split_andb. rewrite py_eq_refl by assumption. now apply IH.
  - induction x as [|a x IH]; intros [|b y]; cbn; intros Hx Hy;
      try reflexivity.
    split_andb. rewrite (py_eq_sym a b) by assumption.
    now rewrite IH.
  - induction x as [|a x IH]; intros [|b y] [|c z]; cbn;
      intros Hx Hy Hz Hxy Hyz; try reflexivity; try discriminate.
    split_andb. apply andb_true_intro. split.
    + now apply (py_eq_trans a b c).
    + now apply (IH y z).
Qed.

#[export] Instance PyLawful_TagGroup : PyLawful TagGroup.t.
Proof.
  split; cbn [py_eq py_hashable PyObject_TagGroup];
    unfold TagGroup.__eq__, TagGroup.hashable.
  - intros x Hx. split_andb.
    now rewrite (py_eq_refl (TagGroup.name x)),
                (py_eq_refl (TagGroup.description x)).
  - intros x y Hx Hy. split_andb.
    now rewrite (py_eq_sym (TagGroup.name x)),
                (py_eq_sym (TagGroup.description x)).
  - intros x y z Hx Hy Hz Hxy Hyz. split_andb.
    apply andb_true_intro; split; chain_py_eq.
Qed.

#[export] Instance PyLawful_Tag : PyLawful Tag.t.
Proof.
  split; cbn [py_eq py_hashable PyObject_Tag];
    unfold Tag.__eq__, Tag.hashable.
  - intros x Hx. split_andb.
    now rewrite (py_eq_refl (Tag.name x)), (py_eq_refl (Tag.description x)),
                (py_eq_refl (Tag.group x)).
  - intros x y Hx Hy. split_andb.
    now rewrite (py_eq_sym (Tag.name x)), (py_eq_sym (Tag.description x)),
                (py_eq_sym (Tag.group x)).
  - intros x y z Hx Hy Hz Hxy Hyz. split_andb.
    apply andb_true_intro; split; [apply andb_true_intro; split|];
      chain_py_eq.
Qed.

#[export] Instance PyLawful_Reference : PyLawful Reference.t.
Proof.
  split; cbn [py_eq py_hashable PyObject_Reference];
    unfold Reference.__eq__, Reference.hashable.
  - intros x Hx. split_andb.
    now rewrite (py_eq_refl (Reference.title x)),
                (py_eq_refl (Reference.author x)),
                (py_eq_refl (Reference.tags x)),
                (py_eq_refl (Reference.url x)).
  - intros x y Hx Hy. split_andb.
    now rewrite (py_eq_sym (Reference.title x)),
                (py_eq_sym (Reference.author x)),
                (py_eq_sym (Reference.tags x)),
                (py_eq_sym (Reference.url x)).
  - intros x y z Hx Hy Hz Hxy Hyz. split_andb.
    apply andb_true_intro; split;
      [apply andb_true_intro; split; [apply andb_true_intro; split|]|];
      chain_py_eq.
Qed.

(** ** find_duplicates *)

Section FindDuplicatesFacts.

Context {A : Type} `{PyLawful A}.

Lemma tuple_contains_app (x : A) (l l' : list A) :
  tuple_contains x (l ++ l') = tuple_contains x l || tuple_contains x l'.
Proof. apply existsb_app. Qed.

Lemma tuple_contains_In (x : A) (l : list A) :
  tuple_contains x l = true <-> exists e, In e l /\ py_eq e x = true.
Proof. apply existsb_exists. Qed.

Lemma tuple_contains_false (x : A) (l : list A) :
  tuple_contains x l = false <-> forall e, In e l -> py_eq e x = false.
Proof.
  split.
  - intros Hc e He. destruct (py_eq e x) eqn:E; [|reflexivity].
    assert (tuple_contains x l = true) by (apply tuple_contains_In; eauto).
    congruence.
  - intros Hall. destruct (tuple_contains x l) eqn:E; [|reflexivity].
    apply tuple_contains_In in E. destruct E as (e & He & Heq).
    rewrite Hall in Heq by assumption. discriminate.
Qed.

Lemma hashable_In (l : list A) (e : A) :
  forallb py_hashable l = true -> In e l -> py_hashable e = true.
Proof. intros Hl He. rewrite forallb_forall in Hl. now apply Hl. Qed.

Lemma stands_for_lookup (seen before : list A) (y : A) :
  stands_for seen before -> py_hashable y = true ->
  set_contains y seen = tuple_contains y before.
Proof.
  intros [Hsub Hrep] Hy.
  destruct (tuple_contains y before) eqn:E.
  - now apply Hrep.
  - apply tuple_contains_false. intros s Hs.
    rewrite tuple_contains_false in E. apply E. now apply Hsub.
Qed.

Lemma stands_for_add (seen before : list A) (item : A) :
  stands_for seen before ->
  stands_for (seen ++ [item]) (before ++ [item]).
Proof.
  intros [Hsub Hrep]. split.
  - intros s Hs. apply in_app_iff in Hs. apply in_app_iff.
    destruct Hs as [Hs|Hs]; [left; now apply Hsub | now right].
  - intros y Hy Hc. unfold set_contains.
    change (tuple_contains y (seen ++ [item]) = true).
    rewrite tuple_contains_app in *.
    apply orb_true_iff in Hc. apply orb_true_iff.
    destruct Hc as [Hc|Hc]; [left; now apply Hrep | now right].
Qed.

Lemma stands_for_skip (seen before : list A) (item : A) :
  forallb py_hashable before = true -> py_hashable item = true ->
  stands_for seen before -> set_contains item seen = true ->
  stands_for seen (before ++ [item]).
Proof.
  intros Hb Hi [Hsub Hrep] Hseen. split.
  - intros s Hs. apply in_app_iff. left. now apply Hsub.
  - intros y Hy Hc. rewrite tuple_contains_app in Hc.
    apply orb_true_iff in Hc. destruct Hc as [Hc|Hc]; [now apply Hrep|].
    cbn in Hc. rewrite orb_false_r in Hc.
    apply tuple_contains_In in Hseen. destruct Hseen as (s & Hs & Hsi).
    apply tuple_contains_In. exists s. split; [assumption|].
    apply (py_eq_trans s item y); try assumption.
    apply (hashable_In before); [assumption | now apply Hsub].
Qed.

(** The loop reports the items that have an equal item before them. *)
Lemma find_duplicates_loop_spec (x dups seen before : list A) :
  forallb py_hashable before = true -> forallb py_hashable x = true ->
  stands_for seen before ->
  find_duplicates_loop dups seen x = Ok (dups ++ repeats_after before x).
Proof.
  revert dups seen before.
  induction x as [|item x IH]; intros dups seen before Hb Hx Hrep; cbn.
  - now rewrite app_nil_r.
  - cbn in Hx. apply andb_prop in Hx. destruct Hx as [Hi Hx].
    unfold py_hash. rewrite Hi. cbn.
    assert (Hb' : forallb py_hashable (before ++ [item]) = true).
    { rewrite forallb_app, Hb. cbn. now rewrite Hi. }
    rewrite (stands_for_lookup seen before item Hrep Hi).
    destruct (tuple_contains item before) eqn:E; cbn.
    + rewrite (IH (dups ++ [item]) seen (before ++ [item])); try assumption.
      * now rewrite <- app_assoc.
      * apply stands_for_skip; try assumption.
        now rewrite (stands_for_lookup seen before item Hrep Hi).
    + apply IH; try assumption. now apply stands_for_add.
Qed.

Lemma find_duplicates_repeats_after (S : list A) :
  forallb py_hashable S = true ->
  find_duplicates S = Ok (repeats_after [] S).
Proof.
  intros HS. unfold find_duplicates.
  rewrite (find_duplicates_loop_spec S [] [] []); try assumption.
  - reflexivity.
  - reflexivity.
  - split; [intros s []|]. intros y _ Hc. discriminate Hc.
Qed.

(** An item that does not hash makes the loop raise. *)
Lemma find_duplicates_loop_unhashable (x dups seen : list A) :
  forallb py_hashable x = false ->
  find_duplicates_loop dups seen x = Raise (TypeError Unhashable).
Proof.
  revert dups seen. induction x as [|item x IH]; intros dups seen Hx; cbn in *.
  - discriminate.
  - unfold py_hash. destruct (py_hashable item); cbn in *.
    + destruct (negb (set_contains item seen)); now apply IH.
    + reflexivity.
Qed.

(** [repeats_after] goes through the places of the sequence. *)
Lemma repeats_after_index (x before : list A) :
  repeats_after before x =
  map snd
      (filter (fun jx => tuple_contains (snd jx)
                                        (firstn (fst jx) (before ++ x)))
              (combine (seq (length before) (length x)) x)).
Proof.
  revert before. induction x as [|item x IH]; intros before; [reflexivity|].
  cbn [repeats_after length seq combine filter fst snd].
  rewrite firstn_app, firstn_all, Nat.sub_diag, firstn_0, app_nil_r.
  rewrite (IH (before ++ [item])), last_length, <- app_assoc.
  cbn [app]. now destruct (tuple_contains item before).
Qed.

Lemma repeats_after_nil (S : list A) : repeats_after [] S = repeats S.
Proof. apply (repeats_after_index S []). Qed.

(** Equal items are found in the same sequences. *)
Lemma tuple_contains_equal (before : list A) (item a : A) :
  forallb py_hashable before = true ->
  py_hashable item = true -> py_hashable a = true ->
  py_eq item a = true ->
  tuple_contains item before = tuple_contains a before.
Proof.
  intros Hb Hi Ha Heq.
  assert (Heq' : py_eq a item = true) by (now rewrite py_eq_sym).
  apply Bool.eq_iff_eq_true. rewrite !tuple_contains_In.
  split; intros (e & He & Hee); exists e; (split; [assumption|]);
    pose proof (hashable_In before e Hb He) as Hh.
  - now apply (py_eq_trans e item a).
  - now apply (py_eq_trans e a item).
Qed.

Lemma occurrences_cons (a item : A) (x : list A) :
  occurrences a (item :: x) =
  (if py_eq item a then 1 else 0) + occurrences a x.
Proof. unfold occurrences. cbn. now destruct (py_eq item a). Qed.

(** An element found before is reported at each of its occurrences, an
    element not found before at each but the first. *)
Lemma occurrences_repeats_after (x before : list A) (a : A) :
  forallb py_hashable before = true -> forallb py_hashable x = true ->
  py_hashable a = true ->
  occurrences a (repeats_after before x) =
  if tuple_contains a before then occurrences a x else occurrences a x - 1.
Proof.
  revert before.
  induction x as [|item x IH]; intros before Hb Hx Ha.
  - cbn. now destruct (tuple_contains a before).
  - cbn in Hx. apply andb_prop in Hx. destruct Hx as [Hi Hx].
    assert (Hb' : forallb py_hashable (before ++ [item]) = true).
    { rewrite forallb_app, Hb. cbn. now rewrite Hi. }
    specialize (IH (before ++ [item]) Hb' Hx Ha).
    rewrite tuple_contains_app in IH. cbn [tuple_contains existsb] in IH.
    rewrite orb_false_r in IH.
    cbn [repeats_after]. rewrite occurrences_cons.
    destruct (py_eq item a) eqn:Eia.
    + rewrite (tuple_contains_equal before item a) by assumption.
      rewrite orb_true_r in IH.
      destruct (tuple_contains a before).
      * rewrite occurrences_cons, Eia, IH. reflexivity.
      * rewrite IH. cbn. now rewrite Nat.sub_0_r.
    + rewrite orb_false_r in IH.
      destruct (tuple_contains item before).
      * rewrite occurrences_cons, Eia, IH. reflexivity.
      * rewrite IH. reflexivity.
Qed.

Lemma repeats_after_empty_iff (x before : list A) :
  repeats_after before x = [] <->
  forall j y, nth_error x j = Some y ->
              tuple_contains y (before ++ firstn j x) = false.
Proof.
  revert before. induction x as [|item x IH]; intros before.
  - split; [|reflexivity]. intros _ [|j] y Hy; discriminate.
  - cbn [repeats_after]. split.
    + intros Hnil. destruct (tuple_contains item before) eqn:E;
        [discriminate|].
      intros [|j] y Hy; cbn in Hy.
      * injection Hy as <-. cbn. now rewrite app_nil_r.
      * cbn [firstn]. change (item :: firstn j x) with ([item] ++ firstn j x).
        rewrite app_assoc. now apply (proj1 (IH (before ++ [item]))).
    + intros Hall.
      pose proof (Hall 0 item eq_refl) as Hhead. cbn in Hhead.
      rewrite app_nil_r in Hhead. rewrite Hhead.
      apply IH. intros j y Hy.
      rewrite <- app_assoc. apply (Hall (S j) y Hy).
Qed.

(** No item has an equal item before it exactly when no two places hold
    equal items. *)
Lemma pairwise_distinct_iff (S : list A) :
  forallb py_hashable S = true ->
  pairwise_distinct S <->
  forall j y, nth_error S j = Some y -> tuple_contains y (firstn j S) = false.
Proof.
  intros HS. split.
  - intros Hd j y Hy. apply tuple_contains_false. intros e He.
    apply In_nth_error in He. destruct He as [i Hi].
    rewrite nth_error_firstn in Hi.
    destruct (Nat.ltb i j) eqn:Hij; [|discriminate].
    apply Nat.ltb_lt in Hij. apply (Hd i j e y); [lia|assumption..].
  - intros Hall i j x y Hne Hx Hy.
    assert (Hhx : py_hashable x = true)
      by (apply (hashable_In S); [assumption | eapply nth_error_In; eauto]).
    assert (Hhy : py_hashable y = true)
      by (apply (hashable_In S); [assumption | eapply nth_error_In; eauto]).
    destruct (Nat.lt_ge_cases i j) as [Hlt|Hge].
    + pose proof (Hall j y Hy) as Hc. rewrite tuple_contains_false in Hc.
      apply Hc. apply (nth_error_In _ i). rewrite nth_error_firstn.
      apply Nat.ltb_lt in Hlt. now rewrite Hlt.
    + assert (Hlt : j < i) by lia.
      rewrite py_eq_sym by assumption.
      pose proof (Hall i x Hx) as Hc. rewrite tuple_contains_false in Hc.
      apply Hc. apply (nth_error_In _ j). rewrite nth_error_firstn.
      apply Nat.ltb_lt in Hlt. now rewrite Hlt.
Qed.

Lemma find_duplicates_empty (S : list A) :
  forallb py_hashable S = true ->
  find_duplicates S = Ok [] <-> pairwise_distinct S.
Proof.
  intros HS. rewrite find_duplicates_repeats_after by assumption.
  rewrite pairwise_distinct_iff by assumption.
  rewrite <- (repeats_after_empty_iff S []).
  split; [intros E; now injection E | intros ->; reflexivity].
Qed.

End FindDuplicatesFacts.

(** C4: for a sequence [S] of hashable elements, [find_duplicates S] returns
    the empty list exactly when the elements of [S] are pairwise distinct
    under value equality; on [1, 2, 3, 3] it returns [3]. *)
Theorem find_duplicates_empty_iff_distinct {A : Type} `{PyLawful A}
  (S : list A) :
  forallb py_hashable S = true ->
  (find_duplicates S = Ok [] <-> pairwise_distinct S)
  /\ find_duplicates [1; 2; 3; 3]%Z = Ok [3%Z].
Proof.
  intros HS. split; [now apply find_duplicates_empty | reflexivity].
Qed.

Lemma find_duplicates_empty_iff_distinct_witness :
  (find_duplicates [1; 2; 3]%Z = Ok [] <-> pairwise_distinct [1; 2; 3]%Z)
  /\ find_duplicates [1; 2; 3; 3]%Z = Ok [3%Z].
Proof.
  apply (find_duplicates_empty_iff_distinct [1; 2; 3]%Z). reflexivity.
Defined.

(** C3, as amended: for a sequence [S] of hashable elements,
    [find_duplicates S] returns, in the order of [S], every element that has
    an equal element at an earlier place; an element that occurs [k] times
    in [S] is reported [k - 1] times (once per repeat, so exactly once when
    it occurs twice). *)
Theorem find_duplicates_reports_repeats {A : Type} `{PyLawful A}
  (S : list A) :
  forallb py_hashable S = true ->
  find_duplicates S = Ok (repeats S)
  /\ forall a, py_hashable a = true ->
               occurrences a (repeats S) = occurrences a S - 1.
Proof.
  intros HS. split.
  - rewrite <- repeats_after_nil. now apply find_duplicates_repeats_after.
  - intros a Ha. rewrite <- repeats_after_nil.
    now rewrite (occurrences_repeats_after S [] a).
Qed.

Lemma find_duplicates_reports_repeats_witness :
  find_duplicates [1; 2; 1; 2; 1]%Z = Ok (repeats [1; 2; 1; 2; 1]%Z)
  /\ forall a, py_hashable a = true ->
               occurrences a (repeats [1; 2; 1; 2; 1]%Z)
               = occurrences a [1; 2; 1; 2; 1]%Z - 1.
Proof.
  apply (find_duplicates_reports_repeats [1; 2; 1; 2; 1]%Z). reflexivity.
Defined.

(** C3, as stated, fails on [1, 1, 1]: the element occurs three times and is
    reported twice, where the claim has it reported once. *)
Lemma find_duplicates_reports_thrice_twice :
  find_duplicates [1; 1; 1]%Z = Ok [1; 1]%Z
  /\ duplicates_once [1; 1; 1]%Z = [1%Z]
  /\ occurrences 1%Z [1; 1; 1]%Z = 3
  /\ occurrences 1%Z [1; 1]%Z = 2.
Proof. repeat split. Qed.

(** ** Reference *)

Lemma TagGroup_eq_refl (g : TagGroup.t) : py_eq g g = true.
Proof.
  cbn. unfold TagGroup.__eq__. cbn. now rewrite !value_eq_refl.
Qed.

Lemma Tag_eq_refl (t : Tag.t) : py_eq t t = true.
Proof.
  cbn [py_eq PyObject_Tag]. unfold Tag.__eq__.
  rewrite TagGroup_eq_refl. cbn. now rewrite !value_eq_refl.
Qed.

(** C9: [add_tag] with a tag that the reference already holds (by value
    equality) leaves the reference unchanged; hence a second [add_tag] with
    the same tag changes nothing, and the length of the tag sequence is
    what it was after the first call. *)
Theorem add_tag_idempotent (r : Reference.t) (tag : Tag.t) :
  (tuple_contains tag (Reference.tags r) = true -> Reference.add_tag r tag = r)
  /\ Reference.add_tag (Reference.add_tag r tag) tag = Reference.add_tag r tag
  /\ length (Reference.tags (Reference.add_tag (Reference.add_tag r tag) tag))
     = length (Reference.tags (Reference.add_tag r tag)).
Proof.
  assert (Hpresent : forall r', tuple_contains tag (Reference.tags r') = true ->
                                Reference.add_tag r' tag = r').
  { intros r' Hin. unfold Reference.add_tag. now rewrite Hin. }
  assert (Htwice : Reference.add_tag (Reference.add_tag r tag) tag
                   = Reference.add_tag r tag).
  { apply Hpresent. unfold Reference.add_tag.
    destruct (tuple_contains tag (Reference.tags r)) eqn:E; cbn.
    - exact E.
    - unfold tuple_contains. rewrite existsb_app. cbn [existsb].
      rewrite Tag_eq_refl. cbn. apply orb_true_r. }
  split; [apply Hpresent|]. split; [exact Htwice|]. now rewrite Htwice.
Qed.

Lemma add_tag_idempotent_witness :
  let g := TagGroup.make (VStr "g") (VStr "a group") in
  let t := Tag.make (VStr "t") (VStr "a tag") g in
  let r := Reference.make (VStr "r") [VStr "a"] [t] VNone in
  Reference.add_tag r t = r.
Proof.
  intros g t r. apply (proj1 (add_tag_idempotent r t)). reflexivity.
Defined.

(** C10: constructing a Reference with [tags] left out, or [None], raises a
    [TypeError]; a Reference that was constructed was given an iterable of
    tags, which it holds. *)
Theorem Reference_init_needs_tags (title author url : value) :
  (exists why,
      Reference.__init__ title author url None = Raise (TypeError why))
  /\ (forall tags r,
         Reference.__init__ title author url tags = Ok r ->
         exists ts, tags = Some ts /\ Reference.tags r = ts).
Proof.
  split.
  - unfold Reference.__init__.
    destruct author as [| b | z | s | l | d]; cbn; eauto.
  - intros tags r. unfold Reference.__init__.
    destruct tags as [ts|].
    + intros Hr. exists ts. split; [reflexivity|].
      destruct author as [| b | z | s | l | d]; cbn in Hr;
        try discriminate; injection Hr as <-; reflexivity.
    + destruct author as [| b | z | s | l | d]; cbn; discriminate.
Qed.

Lemma Reference_init_needs_tags_witness :
  exists ts, Some [] = Some ts
             /\ Reference.tags (Reference.make (VStr "t") [VStr "a"] [] VNone)
                = ts.
Proof.
  apply (proj2 (Reference_init_needs_tags (VStr "t") (VStr "a") VNone)).
  reflexivity.
Defined.

(** ** Validation of a catalog *)

Lemma find_duplicates_pair {A : Type} `{PyLawful A} (a b : A) :
  py_hashable a = true -> py_hashable b = true ->
  find_duplicates [a; b] = Ok (if py_eq a b then [b] else []).
Proof.
  intros Ha Hb. unfold find_duplicates. cbn. unfold py_hash.
  rewrite Ha, Hb. cbn. rewrite orb_false_r.
  now destruct (py_eq a b).
Qed.

Lemma has_duplicates_not_distinct {A : Type} `{PyObject A} (S : list A) :
  has_duplicates S -> ~ pairwise_distinct S.
Proof.
  intros (i & j & x & y & Hij & Hx & Hy & Heq) Hd.
  rewrite (Hd i j x y Hij Hx Hy) in Heq. discriminate.
Qed.

Lemma mbind_returned {A B : Type} (m : TORI.method A)
  (k : A -> TORI.method B) (self : TORI.t) (a : A) (self' : TORI.t) :
  m self = TORI.Returned a self' -> TORI.mbind m k self = k a self'.
Proof. intros Hm. unfold TORI.mbind. now rewrite Hm. Qed.

Lemma mbind_raised {A B : Type} (m : TORI.method A)
  (k : A -> TORI.method B) (self : TORI.t) (e : exn) (self' : TORI.t) :
  m self = TORI.Raised e self' -> TORI.mbind m k self = TORI.Raised e self'.
Proof. intros Hm. unfold TORI.mbind. now rewrite Hm. Qed.

(** What [validate_tag_groups] does once the duplicates are known. *)
Lemma validate_tag_groups_run (collect : bool) (self : TORI.t)
  (dups : list TagGroup.t) :
  find_duplicates (TORI.tag_groups self) = Ok dups ->
  TORI.validate_tag_groups collect self =
  match dups with
  | [] => TORI.Returned true self
  | _ :: _ =>
      let message := TagGroupsNotUnique (map TagGroup.__repr__ dups) in
      if collect
      then TORI.Returned false
             (TORI.set_errors (TORI._errors self ++ [message]) self)
      else TORI.Raised (TORISchemeError message) self
  end.
Proof.
  intros Hd. unfold TORI.validate_tag_groups, TORI.mbind, TORI.get, TORI.lift.
  rewrite Hd. destruct dups as [|d dups]; [reflexivity|].
  cbn. unfold TORI._raise_error. now destruct collect.
Qed.

(** A tag group that does not hash (its name or its description is a list or
    a dict) makes the check raise [TypeError], in both modes. *)
Lemma validate_tag_groups_unhashable (collect : bool) (self : TORI.t) :
  forallb py_hashable (TORI.tag_groups self) = false ->
  TORI.validate_tag_groups collect self
  = TORI.Raised (TypeError Unhashable) self.
Proof.
  intros Hh. unfold TORI.validate_tag_groups.
  rewrite (mbind_returned _ _ self self self) by reflexivity.
  apply mbind_raised. unfold TORI.lift, find_duplicates.
  now rewrite find_duplicates_loop_unhashable.
Qed.

(** C7: duplicates are found by full-attribute equality.  A catalog of two
    tag groups with the same name and the same description fails
    [validate_tag_groups] (it raises, or returns [False] with the error
    collected); with the same name and different descriptions it passes. *)
Theorem validate_tag_groups_full_equality (name d1 d2 : value)
  (tags : list Tag.t) (references : list Reference.t) :
  value_hashable name = true -> value_hashable d1 = true ->
  value_hashable d2 = true -> value_eq d1 d2 = false ->
  let same :=
    TORI.__init__ [TagGroup.make name d1; TagGroup.make name d1]
                  tags references in
  let differ :=
    TORI.__init__ [TagGroup.make name d1; TagGroup.make name d2]
                  tags references in
  let message := TagGroupsNotUnique [Repr "TagGroup" name] in
  TORI.validate_tag_groups false same
  = TORI.Raised (TORISchemeError message) same
  /\ TORI.validate_tag_groups true same
     = TORI.Returned false (TORI.set_errors [message] same)
  /\ forall collect,
       TORI.validate_tag_groups collect differ = TORI.Returned true differ.
Proof.
  intros Hn H1 H2 Hne same differ message.
  assert (Hh1 : py_hashable (TagGroup.make name d1) = true).
  { cbn. unfold TagGroup.hashable. cbn. now rewrite Hn, H1. }
  assert (Hh2 : py_hashable (TagGroup.make name d2) = true).
  { cbn. unfold TagGroup.hashable. cbn. now rewrite Hn, H2. }
  assert (Hsame : find_duplicates (TORI.tag_groups same)
                  = Ok [TagGroup.make name d1]).
  { cbn [same TORI.__init__ TORI._set_keys TORI.tag_groups].
    rewrite find_duplicates_pair by assumption.
    now rewrite TagGroup_eq_refl. }
  assert (Hdiffer : find_duplicates (TORI.tag_groups differ) = Ok []).
  { cbn [differ TORI.__init__ TORI._set_keys TORI.tag_groups].
    rewrite find_duplicates_pair by assumption.
    cbn [py_eq PyObject_TagGroup]. unfold TagGroup.__eq__.
    cbn [TagGroup.name TagGroup.description py_eq PyObject_value].
    now rewrite Hne, andb_false_r. }
  repeat split.
  - now rewrite (validate_tag_groups_run false same _ Hsame).
  - now rewrite (validate_tag_groups_run true same _ Hsame).
  - intros collect.
    now rewrite (validate_tag_groups_run collect differ _ Hdiffer).
Qed.

Lemma validate_tag_groups_full_equality_witness :
  let same :=
    TORI.__init__ [TagGroup.make (VStr "g") (VStr "one");
                   TagGroup.make (VStr "g") (VStr "one")] [] [] in
  let differ :=
    TORI.__init__ [TagGroup.make (VStr "g") (VStr "one");
                   TagGroup.make (VStr "g") (VStr "other")] [] [] in
  let message := TagGroupsNotUnique [Repr "TagGroup" (VStr "g")] in
  TORI.validate_tag_groups false same
  = TORI.Raised (TORISchemeError message) same
  /\ TORI.validate_tag_groups true same
     = TORI.Returned false (TORI.set_errors [message] same)
  /\ forall collect,
       TORI.validate_tag_groups collect differ = TORI.Returned true differ.
Proof.
  apply (validate_tag_groups_full_equality
           (VStr "g") (VStr "one") (VStr "other") [] []); reflexivity.
Defined.

Lemma find_duplicates_of_duplicates {A : Type} `{PyLawful A} (S : list A) :
  forallb py_hashable S = true -> has_duplicates S ->
  exists d dups, find_duplicates S = Ok (d :: dups).
Proof.
  intros HS Hdup.
  pose proof (find_duplicates_repeats_after S HS) as Hrun.
  destruct (repeats_after [] S) as [|d dups] eqn:E.
  - exfalso. apply (has_duplicates_not_distinct S Hdup).
    now apply find_duplicates_empty.
  - now exists d, dups.
Qed.

(** C5: when the tag groups of a catalog hold a duplicate,
    [validate(collect_errors=False)] raises the [TORISchemeError] of the
    tag-group uniqueness check, with nothing collected; the error is the same
    whatever the tags and the references of the catalog are, so the checks
    of the tags and of the references are not reached. *)
Theorem validate_stops_at_duplicate_tag_groups (c : TORI.t) :
  forallb py_hashable (TORI.tag_groups c) = true ->
  has_duplicates (TORI.tag_groups c) ->
  exists dups,
    dups <> []
    /\ find_duplicates (TORI.tag_groups c) = Ok dups
    /\ forall c',
         TORI.tag_groups c' = TORI.tag_groups c ->
         TORI.validate false c'
         = TORI.Raised
             (TORISchemeError
                (TagGroupsNotUnique (map TagGroup.__repr__ dups)))
             (TORI.set_errors [] c').
Proof.
  intros Hh Hdup.
  destruct (find_duplicates_of_duplicates _ Hh Hdup) as (d & dups & Hrun).
  exists (d :: dups). split; [discriminate|]. split; [exact Hrun|].
  intros c' Hsame.
  unfold TORI.validate, TORI.mbind at 1, TORI._clear_errors.
  unfold TORI.mbind at 1.
  rewrite (validate_tag_groups_run false (TORI.set_errors [] c') (d :: dups)).
  - reflexivity.
  - cbn [TORI.set_errors TORI.tag_groups]. now rewrite Hsame.
Qed.

Lemma validate_stops_at_duplicate_tag_groups_witness :
  exists dups,
    dups <> []
    /\ find_duplicates (TORI.tag_groups flawed_catalog) = Ok dups
    /\ forall c',
         TORI.tag_groups c' = TORI.tag_groups flawed_catalog ->
         TORI.validate false c'
         = TORI.Raised
             (TORISchemeError
                (TagGroupsNotUnique (map TagGroup.__repr__ dups)))
             (TORI.set_errors [] c').
Proof.
  apply (validate_stops_at_duplicate_tag_groups flawed_catalog).
  - reflexivity.
  - exists 0, 1, (TagGroup.make (VStr "g") (VStr "a group")),
      (TagGroup.make (VStr "g") (VStr "a group")).
    repeat split. discriminate.
Defined.

(** The attribute loop of [validate_tags] raises at the first tag that lacks
    its name or its description: it calls [_raise_error] without [collect],
    whatever the mode of the validation. *)
Lemma check_tag_attributes_raises (ts : list Tag.t) (valid : bool)
  (self : TORI.t) :
  existsb tag_lacks_attribute ts = true ->
  exists t,
    In t ts
    /\ (TORI.check_tag_attributes ts valid self
        = TORI.Raised (TORISchemeError (TagMissingName (Tag.__repr__ t))) self
        \/ TORI.check_tag_attributes ts valid self
           = TORI.Raised
               (TORISchemeError (TagMissingDescription (Tag.__repr__ t)))
               self).
Proof.
  revert valid. induction ts as [|t ts IH]; intros valid Hex; [discriminate|].
  cbn [existsb] in Hex. cbn [TORI.check_tag_attributes].
  unfold TORI.mbind at 1 2.
  destruct (truthy (Tag.name t)) eqn:En; cbn [negb].
  - destruct (truthy (Tag.description t)) eqn:Ed; cbn [negb].
    + unfold tag_lacks_attribute at 1 in Hex. rewrite En, Ed in Hex.
      cbn in Hex. destruct (IH valid Hex) as (t' & Hin & Hrun).
      exists t'. split; [now right|]. cbn. exact Hrun.
    + exists t. split; [now left|]. right. reflexivity.
  - exists t. split; [now left|]. left. reflexivity.
Qed.

(** Whatever the mode, [validate] raises when a tag lacks its name or its
    description (the tag groups being hashable, so that their check
    returns). *)
Lemma validate_raises_on_tag_attribute (collect : bool) (c : TORI.t) :
  forallb py_hashable (TORI.tag_groups c) = true ->
  pairwise_distinct (TORI.tag_groups c) \/ collect = true ->
  existsb tag_lacks_attribute (TORI.tags c) = true ->
  exists t c',
    In t (TORI.tags c)
    /\ (TORI.validate collect c
        = TORI.Raised (TORISchemeError (TagMissingName (Tag.__repr__ t))) c'
        \/ TORI.validate collect c
           = TORI.Raised
               (TORISchemeError (TagMissingDescription (Tag.__repr__ t))) c').
Proof.
  intros Hh Hmode Hex.
  pose proof (find_duplicates_repeats_after _ Hh) as Hrun.
  assert (Hstep : exists b c1,
             TORI.tags c1 = TORI.tags c
             /\ TORI.validate_tag_groups collect (TORI.set_errors [] c)
                = TORI.Returned b c1).
  { rewrite (validate_tag_groups_run collect (TORI.set_errors [] c) _ Hrun).
    destruct (repeats_after [] (TORI.tag_groups c)) as [|d dups] eqn:E.
    - exists true, (TORI.set_errors [] c). now split.
    - destruct Hmode as [Hd | ->].
      + apply find_duplicates_empty in Hd; [|assumption].
        cbn [TORI.set_errors TORI.tag_groups] in Hrun. congruence.
      + cbn. eexists _, _. split; [|reflexivity]. reflexivity. }
  destruct Hstep as (b & c1 & Htags & Hstep).
  rewrite <- Htags in Hex.
  destruct (check_tag_attributes_raises _ true c1 Hex) as (t & Hin & Hraise).
  exists t, c1. rewrite <- Htags. split; [assumption|].
  assert (Htags_run : forall e,
             TORI.check_tag_attributes (TORI.tags c1) true c1
             = TORI.Raised e c1 ->
             TORI.validate collect c = TORI.Raised e c1).
  { intros e He. unfold TORI.validate.
    rewrite (mbind_returned _ _ c tt (TORI.set_errors [] c)) by reflexivity.
    rewrite (mbind_returned _ _ _ b c1 Hstep).
    apply mbind_raised. unfold TORI.validate_tags.
    rewrite (mbind_returned _ _ c1 c1 c1) by reflexivity.
    now apply mbind_raised. }
  destruct Hraise as [Hraise | Hraise]; [left | right]; now apply Htags_run.
Qed.

(** C1, at the failing input: on the catalog with one duplicated tag group,
    one tag without a description and one duplicated reference,
    [validate(collect_errors=True)] raises [TORISchemeError] for the tag,
    with one message collected; it does not return the three messages. *)
Theorem validate_collect_raises_on_flawed_catalog :
  TORI.validate true flawed_catalog
  = TORI.Raised
      (TORISchemeError (TagMissingDescription (Repr "Tag" (VStr "t"))))
      (TORI.set_errors [TagGroupsNotUnique [Repr "TagGroup" (VStr "g")]]
                       flawed_catalog).
Proof. reflexivity. Qed.

(** ** The loader *)

Lemma bind_ok {A B : Type} (m : result A) (k : A -> result B) (b : B) :
  bind m k = Ok b -> exists a, m = Ok a /\ k a = Ok b.
Proof. destruct m as [a|e]; cbn; [eauto | discriminate]. Qed.

Tactic Notation "invert_bind" hyp(H) "as" ident(a) ident(Ha) :=
  apply bind_ok in H; destruct H as (a & Ha & H).

Lemma getitem_ok {V : Type} (k : string) (d : list (string * V)) (v : V) :
  getitem k d = Ok v <-> dict_lookup k d = Some v.
Proof.
  unfold getitem. destruct (dict_lookup k d); split; congruence.
Qed.

Lemma require_keys_ok (missing : string -> parse_message)
  (slots : list string) (d : dict) :
  (forall key, In key slots -> dict_lookup key d <> None) ->
  require_keys missing slots d = Ok tt.
Proof.
  induction slots as [|key slots IH]; intros Hall; cbn; [reflexivity|].
  destruct (dict_lookup key d) eqn:E.
  - apply IH. intros key' Hin. apply Hall. now right.
  - exfalso. apply (Hall key); [now left | assumption].
Qed.

(** A reference that has its required keys and whose tags all resolve, but
    that has no [url], makes the loop raise [KeyError]: the keyword
    arguments are taken from all of [__slots__], [url] among them. *)
Lemma build_references_without_url (tag_map : list (value * Tag.t))
  (reference_dict : dict) (rest : list dict) (references : list Reference.t)
  (title author raw_tags : value) (items : list value)
  (reference_tags : list Tag.t) :
  dict_lookup "title" reference_dict = Some title ->
  dict_lookup "author" reference_dict = Some author ->
  dict_lookup "tags" reference_dict = Some raw_tags ->
  py_iter raw_tags = Ok items ->
  resolve_tags tag_map reference_dict items [] = Ok reference_tags ->
  dict_lookup "url" reference_dict = None ->
  build_references tag_map (reference_dict :: rest) references
  = Raise (KeyError (VStr "url")).
Proof.
  intros Ht Ha Hg Hiter Hres Hu. cbn [build_references].
  rewrite require_keys_ok.
  2:{ intros key [<-|[<-|[<-|[]]]]; congruence. }
  cbn [bind]. unfold getitem at 1. rewrite Hg. cbn [bind].
  rewrite Hiter. cbn [bind]. rewrite Hres. cbn [bind].
  unfold Reference.__slots__, Reference.__required_slots__,
    Reference.__optional_slots__.
  cbn [app select_slots]. unfold getitem at 1. rewrite Ht. cbn [bind].
  unfold getitem at 1. rewrite Ha. cbn [bind].
  unfold getitem at 1. rewrite Hg. cbn [bind].
  unfold getitem at 1. rewrite Hu. reflexivity.
Qed.

(** C2, at the failing input: a mapping whose only reference has [title],
    [author] and [tags] (with no tag to resolve) and no [url] is not loaded;
    [load_dict] raises [KeyError] for [url]. *)
Theorem load_dict_without_url_raises :
  load_dict mapping_without_url = Raise (KeyError (VStr "url")).
Proof. reflexivity. Qed.


Lemma load_dict_stages (tori_dict : dict) (c : TORI.t) :
  load_dict tori_dict = Ok c ->
  exists tag_group_dicts tag_dicts reference_dicts
         tag_groups tag_group_map tags tag_map references,
    top_level_lists tori_dict = Ok (tag_group_dicts, tag_dicts, reference_dicts)
    /\ build_tag_groups tag_group_dicts [DEFAULT_TAG_GROUP] = Ok tag_groups
    /\ dict_by TagGroup.name tag_groups [] = Ok tag_group_map
    /\ build_tags tag_group_map tag_dicts [] = Ok tags
    /\ dict_by Tag.name tags [] = Ok tag_map
    /\ build_references tag_map reference_dicts [] = Ok references
    /\ c = TORI.__init__ tag_groups tags references.
Proof.
  intros Hrun. unfold load_dict in Hrun.
  invert_bind Hrun as lists Hlists. destruct lists as [[tgd td] rd].
  invert_bind Hrun as tag_groups Htg. invert_bind Hrun as tag_group_map Htgm.
  invert_bind Hrun as tags Ht. invert_bind Hrun as tag_map Htm.
  invert_bind Hrun as references Hr. injection Hrun as <-.
  exists tgd, td, rd, tag_groups, tag_group_map, tags, tag_map, references.
  repeat split; assumption.
Qed.



(** *** The indices *)

Lemma dict_lookup_In {V : Type} (k : value) (d : list (value * V)) (v : V) :
  dict_lookup k d = Some v -> exists k', In (k', v) d /\ py_eq k' k = true.
Proof.
  induction d as [|[k' v'] d IH]; cbn; [discriminate|].
  destruct (value_eq k' k) eqn:E.
  - intros Hv. injection Hv as <-. exists k'. split; [now left | exact E].
  - intros Hv. destruct (IH Hv) as (k'' & Hin & Heq).
    exists k''. split; [now right | exact Heq].
Qed.

Lemma dict_store_In {V : Type} (k : value) (v : V) (d : list (value * V))
  (k' : value) (v' : V) :
  In (k', v') (dict_store k v d) ->
  In (k', v') d \/ (v' = v /\ (k' = k \/ py_eq k' k = true)).
Proof.
  induction d as [|[k0 v0] d IH]; cbn.
  - intros [Heq|[]]. injection Heq as <- <-. right. split; [reflexivity|].
    now left.
  - destruct (value_eq k0 k) eqn:E; cbn.
    + intros [Heq|Hin].
      * injection Heq as <- <-. right. split; [reflexivity|]. now right.
      * left. now right.
    + intros [Heq|Hin].
      * left. now left.
      * destruct (IH Hin) as [Hd|Hnew]; [left; now right | now right].
Qed.

Lemma dict_by_index {V : Type} (key : V -> value) (universe l : list V)
  (d idx : list (value * V)) :
  (forall x, In x l -> In x universe) ->
  index_of key universe d ->
  dict_by key l d = Ok idx ->
  index_of key universe idx.
Proof.
  revert d. induction l as [|x l IH]; intros d Hsub Hd Hrun.
  - cbn in Hrun. now injection Hrun as <-.
  - cbn [dict_by] in Hrun. invert_bind Hrun as u Hu.
    unfold py_hash in Hu.
    destruct (py_hashable (key x)) eqn:Hkey; [|discriminate].
    apply (IH (dict_store (key x) x d)); [| |assumption].
    + intros y Hy. apply Hsub. now right.
    + intros k v Hin. apply dict_store_In in Hin.
      destruct Hin as [Hin | [-> [-> | Heq]]].
      * now apply Hd.
      * repeat split; try assumption.
        -- apply Hsub. now left.
        -- now apply py_eq_refl.
      * assert (Hk : py_hashable k = true).
        { destruct k; try reflexivity; destruct (key x); discriminate. }
        repeat split; try assumption. apply Hsub. now left.
Qed.

(** A key found in an index built by name is the name of the element it
    gives. *)
Lemma dict_by_lookup {V : Type} (key : V -> value) (l : list V)
  (idx : list (value * V)) (k : value) (v : V) :
  dict_by key l [] = Ok idx -> py_hashable k = true ->
  dict_lookup k idx = Some v ->
  In v l /\ py_eq (key v) k = true.
Proof.
  intros Hrun Hk Hv.
  assert (Hidx : index_of key l idx).
  { apply (dict_by_index key l l [] idx); [auto | intros ? ? [] | assumption]. }
  apply dict_lookup_In in Hv. destruct Hv as (k' & Hin & Heq).
  destruct (Hidx k' v Hin) as (Hl & Hk' & Hkv & Hkk).
  split; [assumption|].
  apply (py_eq_trans (key v) k' k); try assumption.
  now rewrite py_eq_sym.
Qed.

(** *** The loops over the tags and the references *)

Lemma contains_ok {V : Type} (k : value) (d : list (value * V)) (known : bool) :
  contains k d = Ok known ->
  py_hashable k = true
  /\ known = match dict_lookup k d with Some _ => true | None => false end.
Proof.
  unfold contains, py_hash. destruct (py_hashable k); cbn; [|discriminate].
  intros Hk. injection Hk as <-. now split.
Qed.

Lemma build_tags_app (tag_group_map : list (value * TagGroup.t))
  (l1 l2 : list dict) (tags : list Tag.t) :
  build_tags tag_group_map (l1 ++ l2) tags
  = bind (build_tags tag_group_map l1 tags) (build_tags tag_group_map l2).
Proof.
  revert tags. induction l1 as [|d l1 IH]; intros tags; [reflexivity|].
  cbn [app build_tags].
  repeat match goal with
         | |- bind ?m _ = bind (bind ?m _) _ =>
             destruct m; cbn [bind]; [|reflexivity]
         | |- context [if ?b then _ else _] => destruct b; cbn [bind]
         end.
  apply IH.
Qed.

Lemma resolve_tags_app (tag_map : list (value * Tag.t)) (reference_dict : dict)
  (l1 l2 : list value) (reference_tags : list Tag.t) :
  resolve_tags tag_map reference_dict (l1 ++ l2) reference_tags
  = bind (resolve_tags tag_map reference_dict l1 reference_tags)
         (resolve_tags tag_map reference_dict l2).
Proof.
  revert reference_tags.
  induction l1 as [|x l1 IH]; intros reference_tags; [reflexivity|].
  cbn [app resolve_tags].
  repeat match goal with
         | |- bind ?m _ = bind (bind ?m _) _ =>
             destruct m; cbn [bind]; [|reflexivity]
         | |- context [if ?b then _ else _] => destruct b; cbn [bind]
         end.
  apply IH.
Qed.

Lemma build_references_app (tag_map : list (value * Tag.t))
  (l1 l2 : list dict) (references : list Reference.t) :
  build_references tag_map (l1 ++ l2) references
  = bind (build_references tag_map l1 references)
         (build_references tag_map l2).
Proof.
  revert references. induction l1 as [|d l1 IH]; intros references;
    [reflexivity|].
  cbn [app build_references].
  repeat match goal with
         | |- bind ?m _ = bind (bind ?m _) _ =>
             destruct m; cbn [bind]; [|reflexivity]
         end.
  apply IH.
Qed.

(** The loop reaches a tag whose group is not in the index: it raises. *)
Lemma build_tags_undefined_group (tag_group_map : list (value * TagGroup.t))
  (tag_dict : dict) (rest : list dict) (tags : list Tag.t)
  (name description tag_group : value) :
  dict_lookup "name" tag_dict = Some name ->
  dict_lookup "description" tag_dict = Some description ->
  dict_lookup "group" tag_dict = Some tag_group ->
  py_hashable tag_group = true ->
  dict_lookup tag_group tag_group_map = None ->
  build_tags tag_group_map (tag_dict :: rest) tags
  = Raise (TORIParseError (TagUndefinedGroup name tag_group)).
Proof.
  intros Hn Hd Hg Hh Hnone. cbn [build_tags].
  rewrite require_keys_ok.
  2:{ intros key [<-|[<-|[<-|[]]]]; congruence. }
  cbn [bind]. unfold getitem at 1. rewrite Hg. cbn [bind].
  unfold contains, py_hash. rewrite Hh. cbn [bind]. rewrite Hnone.
  cbn [negb]. unfold getitem at 1. rewrite Hn. reflexivity.
Qed.

(** The loop reaches a tag name that is not in the index: it raises. *)
Lemma resolve_tags_undefined_tag (tag_map : list (value * Tag.t))
  (reference_dict : dict) (raw_tag : value) (rest : list value)
  (reference_tags : list Tag.t) (title : value) :
  dict_lookup "title" reference_dict = Some title ->
  py_hashable raw_tag = true ->
  dict_lookup raw_tag tag_map = None ->
  resolve_tags tag_map reference_dict (raw_tag :: rest) reference_tags
  = Raise (TORIParseError (ReferenceUndefinedTag title raw_tag)).
Proof.
  intros Ht Hh Hnone. cbn [resolve_tags].
  unfold contains, py_hash. rewrite Hh. cbn [bind]. rewrite Hnone.
  cbn [negb]. unfold getitem at 1. rewrite Ht. reflexivity.
Qed.

(** When the loop over the tags returns, the group of every tag dict was
    found in the index. *)
Lemma build_tags_resolved (tag_group_map : list (value * TagGroup.t))
  (tag_dicts : list dict) (tags built : list Tag.t) :
  build_tags tag_group_map tag_dicts tags = Ok built ->
  Forall (fun tag_dict =>
            exists tag_group g,
              dict_lookup "group" tag_dict = Some tag_group
              /\ py_hashable tag_group = true
              /\ dict_lookup tag_group tag_group_map = Some g)
         tag_dicts.
Proof.
  revert tags. induction tag_dicts as [|d ds IH]; intros tags Hrun;
    [constructor|].
  cbn [build_tags] in Hrun.
  invert_bind Hrun as u Hu. invert_bind Hrun as tag_group Hg.
  invert_bind Hrun as known Hknown. invert_bind Hrun as u' Hcheck.
  invert_bind Hrun as kwargs Hkw. invert_bind Hrun as g Hgroup.
  invert_bind Hrun as name Hn. invert_bind Hrun as description Hd.
  constructor; [|now apply (IH _ Hrun)].
  apply getitem_ok in Hg. apply contains_ok in Hknown.
  destruct Hknown as [Hh ->].
  destruct (dict_lookup tag_group tag_group_map) as [g'|] eqn:E.
  - now exists tag_group, g'.
  - cbn in Hcheck. invert_bind Hcheck as x Hx. discriminate.
Qed.

Lemma resolve_tags_resolved (tag_map : list (value * Tag.t))
  (reference_dict : dict) (items : list value)
  (reference_tags resolved : list Tag.t) :
  resolve_tags tag_map reference_dict items reference_tags = Ok resolved ->
  Forall (fun raw_tag =>
            py_hashable raw_tag = true
            /\ exists t, dict_lookup raw_tag tag_map = Some t)
         items.
Proof.
  revert reference_tags.
  induction items as [|x items IH]; intros reference_tags Hrun;
    [constructor|].
  cbn [resolve_tags] in Hrun.
  invert_bind Hrun as known Hknown. invert_bind Hrun as u Hcheck.
  invert_bind Hrun as tag Htag.
  constructor; [|now apply (IH _ Hrun)].
  apply contains_ok in Hknown. destruct Hknown as [Hh ->].
  split; [assumption|].
  destruct (dict_lookup x tag_map) as [t|] eqn:E; [now exists t|].
  cbn in Hcheck. invert_bind Hcheck as y Hy. discriminate.
Qed.

Lemma build_references_resolved (tag_map : list (value * Tag.t))
  (reference_dicts : list dict) (references built : list Reference.t) :
  build_references tag_map reference_dicts references = Ok built ->
  Forall (fun reference_dict =>
            exists raw_tags items,
              dict_lookup "tags" reference_dict = Some raw_tags
              /\ py_iter raw_tags = Ok items
              /\ Forall (fun raw_tag =>
                           py_hashable raw_tag = true
                           /\ exists t, dict_lookup raw_tag tag_map = Some t)
                        items)
         reference_dicts.
Proof.
  revert references.
  induction reference_dicts as [|d ds IH]; intros references Hrun;
    [constructor|].
  cbn [build_references] in Hrun.
  invert_bind Hrun as u Hu. invert_bind Hrun as raw_tags Hraw.
  invert_bind Hrun as items Hitems. invert_bind Hrun as resolved Hres.
  invert_bind Hrun as kwargs Hkw. invert_bind Hrun as title Ht.
  invert_bind Hrun as author Ha. invert_bind Hrun as url Hurl.
  invert_bind Hrun as reference Hr.
  constructor; [|now apply (IH _ Hrun)].
  exists raw_tags, items. apply getitem_ok in Hraw.
  repeat split; try assumption. now apply resolve_tags_resolved in Hres.
Qed.

(** C6, as amended: when [load_dict] reaches a tag (the top-level checks
    pass, the tag-group index is built, the tags before it are built and the
    tag dict has its three keys) whose [group] is hashable and is not a key
    of the index, it raises the error ['Tag {} has undefined group {}'] with
    the name of the tag and the group; when it reaches, in a reference that
    has its required keys, a tag name that is hashable and is not a key of
    the tag index, it raises ['Reference {} has undefined tag {}'] with the
    title and the tag name.  And no catalog is returned unless the group of
    every tag and every tag name of every reference resolve: in the catalog
    that [load_dict] returns they are names of its tag groups and of its
    tags. *)
Theorem load_dict_referential_errors (tori_dict : dict)
  (tag_group_dicts tag_dicts reference_dicts : list dict) :
  top_level_lists tori_dict = Ok (tag_group_dicts, tag_dicts, reference_dicts) ->
  (forall tag_group_map before tag_dict after built name description tag_group,
      tag_group_index tag_group_dicts = Ok tag_group_map ->
      tag_dicts = before ++ tag_dict :: after ->
      build_tags tag_group_map before [] = Ok built ->
      dict_lookup "name" tag_dict = Some name ->
      dict_lookup "description" tag_dict = Some description ->
      dict_lookup "group" tag_dict = Some tag_group ->
      py_hashable tag_group = true ->
      dict_lookup tag_group tag_group_map = None ->
      load_dict tori_dict
      = Raise (TORIParseError (TagUndefinedGroup name tag_group)))
  /\ (forall tag_map before reference_dict after built title author raw_tags
             items_before raw_tag items_after resolved,
         tag_index tag_group_dicts tag_dicts = Ok tag_map ->
         reference_dicts = before ++ reference_dict :: after ->
         build_references tag_map before [] = Ok built ->
         dict_lookup "title" reference_dict = Some title ->
         dict_lookup "author" reference_dict = Some author ->
         dict_lookup "tags" reference_dict = Some raw_tags ->
         py_iter raw_tags = Ok (items_before ++ raw_tag :: items_after) ->
         resolve_tags tag_map reference_dict items_before [] = Ok resolved ->
         py_hashable raw_tag = true ->
         dict_lookup raw_tag tag_map = None ->
         load_dict tori_dict
         = Raise (TORIParseError (ReferenceUndefinedTag title raw_tag)))
  /\ (forall c,
         load_dict tori_dict = Ok c ->
         Forall (group_resolved (TORI.tag_groups c)) tag_dicts
         /\ Forall (tags_resolved (TORI.tags c)) reference_dicts).
Proof.
  intros Hlists. split; [|split].
  - intros tag_group_map before tag_dict after built name description
      tag_group Hindex -> Hbuilt Hn Hd Hg Hh Hnone.
    unfold tag_group_index in Hindex. invert_bind Hindex as tag_groups Htg.
    unfold load_dict. rewrite Hlists. cbn [bind].
    rewrite Htg. cbn [bind]. rewrite Hindex. cbn [bind].
    rewrite build_tags_app, Hbuilt. cbn [bind].
    now rewrite (build_tags_undefined_group _ _ _ _ name description tag_group).
  - intros tag_map before reference_dict after built title author raw_tags
      items_before raw_tag items_after resolved Hindex -> Hbuilt Ht Ha Hraw
      Hiter Hres Hh Hnone.
    unfold tag_index, tag_group_index in Hindex.
    invert_bind Hindex as tag_group_map Htgm.
    invert_bind Htgm as tag_groups Htg.
    invert_bind Hindex as tags Htags.
    unfold load_dict. rewrite Hlists. cbn [bind].
    rewrite Htg. cbn [bind]. rewrite Htgm. cbn [bind].
    rewrite Htags. cbn [bind]. rewrite Hindex. cbn [bind].
    rewrite build_references_app, Hbuilt. cbn [bind build_references].
    rewrite require_keys_ok.
    2:{ intros key [<-|[<-|[<-|[]]]]; congruence. }
    cbn [bind]. unfold getitem at 1. rewrite Hraw. cbn [bind].
    rewrite Hiter. cbn [bind].
    rewrite resolve_tags_app, Hres. cbn [bind].
    now rewrite (resolve_tags_undefined_tag _ _ _ _ _ title).
  - intros c Hrun. apply load_dict_stages in Hrun.
    destruct Hrun as (tgd & td & rd & tag_groups & tgm & tags & tm & refs
                      & Hlists' & Htg & Htgm & Htags & Htm & Hrefs & ->).
    rewrite Hlists in Hlists'. injection Hlists' as <- <- <-.
    cbn [TORI.__init__ TORI._set_keys TORI.tag_groups TORI.tags].
    split.
    + apply build_tags_resolved in Htags.
      eapply Forall_impl; [|exact Htags].
      intros tag_dict (tag_group & g & Hg & Hh & Hfound).
      destruct (dict_by_lookup _ _ _ _ _ Htgm Hh Hfound) as [Hin Heq].
      now exists tag_group, g.
    + apply build_references_resolved in Hrefs.
      eapply Forall_impl; [|exact Hrefs].
      intros reference_dict (raw_tags & items & Hraw & Hiter & Hall).
      exists raw_tags, items. repeat split; try assumption.
      eapply Forall_impl; [|exact Hall].
      intros raw_tag (Hh & t & Hfound).
      destruct (dict_by_lookup _ _ _ _ _ Htm Hh Hfound) as [Hin Heq].
      now exists t.
Qed.

Lemma load_dict_referential_errors_witness :
  load_dict mapping_with_undefined_group
  = Raise (TORIParseError (TagUndefinedGroup (VStr "t") (VStr "nowhere")))
  /\ load_dict mapping_with_undefined_tag
     = Raise (TORIParseError
                (ReferenceUndefinedTag (VStr "r") (VStr "missing")))
  /\ (Forall (group_resolved (TORI.tag_groups sample_catalog))
             [[("name", VStr "t"); ("description", VStr "a tag");
               ("group", VStr "g")]]
      /\ Forall (tags_resolved (TORI.tags sample_catalog))
                [[("title", VStr "r"); ("author", VStr "a");
                  ("tags", VList [VStr "t"]); ("url", VNone)]]).
Proof.
  split; [|split].
  - eapply (proj1 (load_dict_referential_errors
                     mapping_with_undefined_group _ _ _ eq_refl)
                  _ [] _ [] []); reflexivity.
  - eapply (proj1 (proj2 (load_dict_referential_errors
                            mapping_with_undefined_tag _ _ _ eq_refl))
                  _ [] _ [] [] _ _ _ [VStr "t"] _ []); reflexivity.
  - apply (proj2 (proj2 (load_dict_referential_errors
                           sample_mapping _ _ _ eq_refl))
                  sample_catalog).
    reflexivity.
Defined.

(** C6, as stated, fails: the second tag of this mapping names a group that
    is not in the tag-group index, and [load_dict] raises the structural
    error of the first tag, which lacks its description; the error is not a
    referential one and names neither the tag nor the group. *)
Lemma load_dict_structural_error_first :
  (exists tag_group_map,
      tag_group_index [] = Ok tag_group_map
      /\ dict_lookup (VStr "nowhere") tag_group_map = None)
  /\ load_dict mapping_with_two_flaws
     = Raise (TORIParseError (TagMissingKey "description"))
  /\ is_referential (TORIParseError (TagMissingKey "description")) = false.
Proof.
  split; [|split; reflexivity].
  eexists. split; reflexivity.
Qed.

(** ** What collecting does collect *)

Lemma check_tag_attributes_passes (ts : list Tag.t) (valid : bool)
  (self : TORI.t) :
  existsb tag_lacks_attribute ts = false ->
  TORI.check_tag_attributes ts valid self = TORI.Returned valid self.
Proof.
  revert valid. induction ts as [|t ts IH]; intros valid Hnone; [reflexivity|].
  cbn [existsb] in Hnone. apply orb_false_iff in Hnone.
  destruct Hnone as [Ht Hts]. unfold tag_lacks_attribute in Ht.
  apply orb_false_iff in Ht. destruct Ht as [Hn Hd].
  cbn [TORI.check_tag_attributes]. rewrite Hn, Hd.
  rewrite (mbind_returned _ _ self valid self) by reflexivity.
  rewrite (mbind_returned _ _ self valid self) by reflexivity.
  now apply IH.
Qed.

Lemma check_reference_attributes_passes (rs : list Reference.t) (valid : bool)
  (self : TORI.t) :
  existsb reference_lacks_attribute rs = false ->
  TORI.check_reference_attributes rs valid self = TORI.Returned valid self.
Proof.
  revert valid. induction rs as [|r rs IH]; intros valid Hnone; [reflexivity|].
  cbn [existsb] in Hnone. apply orb_false_iff in Hnone.
  destruct Hnone as [Hr Hrs]. unfold reference_lacks_attribute in Hr.
  apply orb_false_iff in Hr. destruct Hr as [Ht Ha].
  cbn [TORI.check_reference_attributes]. rewrite Ht, Ha.
  rewrite (mbind_returned _ _ self valid self) by reflexivity.
  rewrite (mbind_returned _ _ self valid self) by reflexivity.
  now apply IH.
Qed.

Lemma validate_tags_collects (self : TORI.t) (dups : list Tag.t) :
  existsb tag_lacks_attribute (TORI.tags self) = false ->
  find_duplicates (TORI.tags self) = Ok dups ->
  TORI.validate_tags true self
  = TORI.Returned
      (negb (truthy_seq dups))
      (TORI.set_errors
         (TORI._errors self
          ++ uniqueness_errors dups (TagsNotUnique (map Tag.__repr__ dups)))
         self).
Proof.
  intros Hattr Hd. unfold TORI.validate_tags.
  rewrite (mbind_returned _ _ self self self) by reflexivity.
  rewrite (mbind_returned _ _ self true self)
    by now apply check_tag_attributes_passes.
  rewrite (mbind_returned _ _ self dups self)
    by (unfold TORI.lift; now rewrite Hd).
  unfold uniqueness_errors. destruct dups as [|d dups]; cbn.
  - rewrite app_nil_r. now destruct self.
  - reflexivity.
Qed.

Lemma validate_references_collects (self : TORI.t)
  (dups : list Reference.t) :
  existsb reference_lacks_attribute (TORI.references self) = false ->
  find_duplicates (TORI.references self) = Ok dups ->
  TORI.validate_references true self
  = TORI.Returned
      (negb (truthy_seq dups))
      (TORI.set_errors
         (TORI._errors self
          ++ uniqueness_errors dups
               (ReferencesNotUnique (map Reference.__repr__ dups)))
         self).
Proof.
  intros Hattr Hd. unfold TORI.validate_references.
  rewrite (mbind_returned _ _ self self self) by reflexivity.
  rewrite (mbind_returned _ _ self true self)
    by now apply check_reference_attributes_passes.
  rewrite (mbind_returned _ _ self dups self)
    by (unfold TORI.lift; now rewrite Hd).
  unfold uniqueness_errors. destruct dups as [|d dups]; cbn.
  - rewrite app_nil_r. now destruct self.
  - reflexivity.
Qed.

(** When no tag and no reference lacks an attribute (and the elements
    hash), [validate(collect_errors=True)] does not raise: it returns the
    messages of the uniqueness checks that fail, in the order tag groups,
    tags, references. *)
Lemma validate_collects_uniqueness_errors (c : TORI.t) :
  forallb py_hashable (TORI.tag_groups c) = true ->
  forallb py_hashable (TORI.tags c) = true ->
  forallb py_hashable (TORI.references c) = true ->
  existsb tag_lacks_attribute (TORI.tags c) = false ->
  existsb reference_lacks_attribute (TORI.references c) = false ->
  let errors :=
    uniqueness_errors (repeats (TORI.tag_groups c))
      (TagGroupsNotUnique
         (map TagGroup.__repr__ (repeats (TORI.tag_groups c))))
    ++ uniqueness_errors (repeats (TORI.tags c))
         (TagsNotUnique (map Tag.__repr__ (repeats (TORI.tags c))))
    ++ uniqueness_errors (repeats (TORI.references c))
         (ReferencesNotUnique
            (map Reference.__repr__ (repeats (TORI.references c)))) in
  TORI.validate true c
  = TORI.Returned (TORI.Errors errors) (TORI.set_errors errors c).
Proof.
  intros Hg Ht Hr Hta Hra errors.
  pose proof (find_duplicates_repeats_after _ Hg) as Dg.
  pose proof (find_duplicates_repeats_after _ Ht) as Dt.
  pose proof (find_duplicates_repeats_after _ Hr) as Dr.
  rewrite repeats_after_nil in Dg. rewrite repeats_after_nil in Dt.
  rewrite repeats_after_nil in Dr.
  set (e1 := uniqueness_errors (repeats (TORI.tag_groups c))
               (TagGroupsNotUnique
                  (map TagGroup.__repr__ (repeats (TORI.tag_groups c))))).
  set (c1 := TORI.set_errors e1 c).
  assert (S1 : TORI.validate_tag_groups true (TORI.set_errors [] c)
               = TORI.Returned
                   (negb (truthy_seq (repeats (TORI.tag_groups c)))) c1).
  { rewrite (validate_tag_groups_run true (TORI.set_errors [] c) _ Dg).
    unfold c1, e1, uniqueness_errors.
    now destruct (repeats (TORI.tag_groups c)). }
  set (e2 := uniqueness_errors (repeats (TORI.tags c))
               (TagsNotUnique (map Tag.__repr__ (repeats (TORI.tags c))))).
  set (c2 := TORI.set_errors (e1 ++ e2) c).
  assert (S2 : TORI.validate_tags true c1
               = TORI.Returned (negb (truthy_seq (repeats (TORI.tags c)))) c2).
  { now rewrite (validate_tags_collects c1 (repeats (TORI.tags c)) Hta Dt). }
  assert (S3 : TORI.validate_references true c2
               = TORI.Returned
                   (negb (truthy_seq (repeats (TORI.references c))))
                   (TORI.set_errors errors c)).
  { rewrite (validate_references_collects
               c2 (repeats (TORI.references c)) Hra Dr).
    unfold c2, errors. cbn [TORI.set_errors TORI._errors].
    now rewrite <- app_assoc. }
  unfold TORI.validate.
  rewrite (mbind_returned _ _ c tt (TORI.set_errors [] c)) by reflexivity.
  rewrite (mbind_returned _ _ _ _ _ S1).
  rewrite (mbind_returned _ _ _ _ _ S2).
  rewrite (mbind_returned _ _ _ _ _ S3).
  reflexivity.
Qed.

(* ================================================================= *)
(** * Further properties *)

(** ** find_duplicates: failure, membership, growth *)

Lemma find_duplicates_loop_returns {A : Type} `{PyObject A}
  (x dups seen : list A) :
  forallb py_hashable x = true ->
  exists r, find_duplicates_loop dups seen x = Ok r.
Proof.
  revert dups seen. induction x as [|item x IH]; intros dups seen Hx; cbn.
  - now exists dups.
  - cbn in Hx. apply andb_prop in Hx. destruct Hx as [Hi Hx].
    unfold py_hash. rewrite Hi. cbn.
    destruct (negb (set_contains item seen)); now apply IH.
Qed.

(** X1: [find_duplicates] raises [TypeError] exactly when an element of the
    sequence does not hash, and returns a list exactly when all do. *)
Theorem find_duplicates_raises_iff_unhashable {A : Type} `{PyObject A}
  (S : list A) :
  (find_duplicates S = Raise (TypeError Unhashable)
   <-> forallb py_hashable S = false)
  /\ ((exists dups, find_duplicates S = Ok dups)
      <-> forallb py_hashable S = true).
Proof.
  destruct (forallb py_hashable S) eqn:E.
  - destruct (find_duplicates_loop_returns S [] [] E) as [r Hr].
    unfold find_duplicates. rewrite Hr. split; split; intros Hx;
      try discriminate; try reflexivity. now exists r.
  - unfold find_duplicates. rewrite find_duplicates_loop_unhashable by exact E.
    split; split; intros Hx; try discriminate; try reflexivity.
    destruct Hx as [dups Hx]. discriminate.
Qed.

Lemma find_duplicates_ok_hashable {A : Type} `{PyObject A} (S dups : list A) :
  find_duplicates S = Ok dups -> forallb py_hashable S = true.
Proof.
  intros Hrun. destruct (forallb py_hashable S) eqn:E; [reflexivity|].
  unfold find_duplicates in Hrun.
  rewrite find_duplicates_loop_unhashable in Hrun by exact E. discriminate.
Qed.

Lemma tuple_contains_occurrences {A : Type} `{PyObject A} (a : A) (l : list A) :
  tuple_contains a l = true <-> 1 <= occurrences a l.
Proof.
  unfold tuple_contains, occurrences.
  induction l as [|e l IH]; cbn; [split; [discriminate | lia]|].
  destruct (py_eq e a); cbn; [split; [lia | reflexivity] | exact IH].
Qed.

(** X2: the list that [find_duplicates] returns holds an element equal to
    [a] exactly when [a] occurs at least twice in the sequence. *)
Theorem find_duplicates_reports_exactly_repeated {A : Type} `{PyLawful A}
  (S dups : list A) (a : A) :
  find_duplicates S = Ok dups -> py_hashable a = true ->
  (tuple_contains a dups = true <-> 2 <= occurrences a S).
Proof.
  intros Hrun Ha.
  pose proof (find_duplicates_ok_hashable S dups Hrun) as HS.
  rewrite (find_duplicates_repeats_after S HS) in Hrun. injection Hrun as <-.
  rewrite tuple_contains_occurrences.
  rewrite (occurrences_repeats_after S [] a) by (assumption || reflexivity).
  cbn. lia.
Qed.

Lemma find_duplicates_reports_exactly_repeated_witness :
  tuple_contains 2%Z [2; 1; 2]%Z = true
  <-> 2 <= occurrences 2%Z [1; 2; 2; 1; 2]%Z.
Proof.
  apply (find_duplicates_reports_exactly_repeated
           [1; 2; 2; 1; 2]%Z [2; 1; 2]%Z 2%Z); reflexivity.
Defined.

Lemma repeats_after_app {A : Type} `{PyObject A} (before x1 x2 : list A) :
  repeats_after before (x1 ++ x2)
  = repeats_after before x1 ++ repeats_after (before ++ x1) x2.
Proof.
  revert before. induction x1 as [|item x1 IH]; intros before; cbn.
  - now rewrite app_nil_r.
  - rewrite IH, <- app_assoc. cbn.
    now destruct (tuple_contains item before).
Qed.

(** X3: appending one item to a sequence appends it to the duplicates when
    the sequence holds an equal item, and changes nothing else. *)
Theorem find_duplicates_snoc {A : Type} `{PyLawful A}
  (S dups : list A) (item : A) :
  find_duplicates S = Ok dups -> py_hashable item = true ->
  find_duplicates (S ++ [item])
  = Ok (if tuple_contains item S then dups ++ [item] else dups).
Proof.
  intros Hrun Hi.
  pose proof (find_duplicates_ok_hashable S dups Hrun) as HS.
  rewrite (find_duplicates_repeats_after S HS) in Hrun. injection Hrun as <-.
  rewrite find_duplicates_repeats_after.
  - rewrite repeats_after_app. cbn [repeats_after app].
    destruct (tuple_contains item S); [reflexivity | now rewrite app_nil_r].
  - rewrite forallb_app, HS. cbn. now rewrite Hi.
Qed.

Lemma find_duplicates_snoc_witness :
  find_duplicates ([1; 2; 1] ++ [2])%Z
  = Ok (if tuple_contains 2%Z [1; 2; 1]%Z then [1] ++ [2] else [1])%Z.
Proof.
  apply (find_duplicates_snoc [1; 2; 1]%Z [1%Z] 2%Z); reflexivity.
Defined.

(** ** Reference.add_tag *)

(** X4: [add_tag] leaves the title, the authors and the url as they are;
    the tags are the former ones, followed by the new tag when none of them
    equals it; afterwards the reference holds the tag and every tag it
    held. *)
Theorem add_tag_extends (r : Reference.t) (tag : Tag.t) :
  let r' := Reference.add_tag r tag in
  Reference.title r' = Reference.title r
  /\ Reference.author r' = Reference.author r
  /\ Reference.url r' = Reference.url r
  /\ Reference.tags r'
     = Reference.tags r
       ++ (if tuple_contains tag (Reference.tags r) then [] else [tag])
  /\ tuple_contains tag (Reference.tags r') = true
  /\ (forall t, tuple_contains t (Reference.tags r) = true ->
                tuple_contains t (Reference.tags r') = true).
Proof.
  cbn zeta. unfold Reference.add_tag.
  destruct (tuple_contains tag (Reference.tags r)) eqn:E;
    cbn [negb Reference.title Reference.author Reference.url Reference.tags].
  - rewrite app_nil_r. repeat split; auto.
  - repeat split.
    + unfold tuple_contains. rewrite existsb_app. cbn [existsb].
      rewrite Tag_eq_refl. apply orb_true_r.
    + intros t Ht. unfold tuple_contains in *. rewrite existsb_app, Ht.
      reflexivity.
Qed.

(** X5: [add_tag] keeps the tags of a reference pairwise distinct. *)
Theorem add_tag_keeps_distinct (r : Reference.t) (tag : Tag.t) :
  forallb py_hashable (Reference.tags r) = true -> py_hashable tag = true ->
  pairwise_distinct (Reference.tags r) ->
  pairwise_distinct (Reference.tags (Reference.add_tag r tag)).
Proof.
  intros Hh Ht Hd. unfold Reference.add_tag.
  destruct (tuple_contains tag (Reference.tags r)) eqn:E; cbn; [exact Hd|].
  set (ts := Reference.tags r) in *.
  assert (Hh' : forallb py_hashable (ts ++ [tag]) = true).
  { rewrite forallb_app, Hh. cbn [forallb]. now rewrite Ht. }
  apply (pairwise_distinct_iff _ Hh').
  rewrite (pairwise_distinct_iff _ Hh) in Hd.
  intros j y Hy.
  destruct (Nat.lt_ge_cases j (length ts)) as [Hlt|Hge].
  - rewrite nth_error_app1 in Hy by assumption.
    rewrite firstn_app.
    replace (j - length ts) with 0 by lia. cbn. rewrite app_nil_r.
    now apply Hd.
  - rewrite nth_error_app2 in Hy by assumption.
    destruct (j - length ts) as [|n] eqn:En; cbn in Hy.
    + injection Hy as <-. rewrite firstn_app, firstn_all2 by lia.
      rewrite En. cbn. rewrite app_nil_r. exact E.
    + destruct n; discriminate.
Qed.

Lemma add_tag_keeps_distinct_witness :
  let g := TagGroup.make (VStr "g") (VStr "a group") in
  let t := Tag.make (VStr "t") (VStr "a tag") g in
  let u := Tag.make (VStr "u") (VStr "another tag") g in
  let r := Reference.make (VStr "r") [VStr "a"] [t] VNone in
  pairwise_distinct (Reference.tags (Reference.add_tag r u)).
Proof.
  intros g t u r. apply (add_tag_keeps_distinct r u); try reflexivity.
  intros [|[|i]] [|[|j]] x y Hij Hx Hy; cbn in Hx, Hy;
    try discriminate; try (now destruct i); try (now destruct j).
  now elim Hij.
Defined.

(** ** Validation: when it returns, what it changes *)

Lemma mbind_inv {A B : Type} (m : TORI.method A) (k : A -> TORI.method B)
  (self : TORI.t) (b : B) (self' : TORI.t) :
  TORI.mbind m k self = TORI.Returned b self' ->
  exists a s1, m self = TORI.Returned a s1 /\ k a s1 = TORI.Returned b self'.
Proof.
  unfold TORI.mbind. destruct (m self) as [a s1|e s1]; [eauto | discriminate].
Qed.

(** The end of each sub-validation when nothing is collected: it returns
    only when the sequence is unique, and then returns [valid]. *)
Lemma uniqueness_check_strict {A : Type} `{PyLawful A} (S : list A)
  (message : list A -> scheme_message) (valid : bool) (self : TORI.t)
  (b : bool) (self' : TORI.t) :
  TORI.mbind (TORI.lift (find_duplicates S))
    (fun dups =>
       if truthy_seq dups
       then TORI.mbind (TORI._raise_error (message dups) false)
                       (fun _ => TORI.ret false)
       else TORI.ret valid) self
  = TORI.Returned b self'
  <-> b = valid /\ self' = self /\ unique S.
Proof.
  unfold TORI.mbind at 1, TORI.lift. split.
  - destruct (find_duplicates S) as [dups|e] eqn:E; [|discriminate].
    destruct dups as [|d dups]; cbn; [|discriminate].
    intros Hr. injection Hr as <- <-.
    pose proof (find_duplicates_ok_hashable S [] E) as HS.
    repeat split; try assumption. now apply find_duplicates_empty.
  - intros (-> & -> & HS & Hd).
    apply (find_duplicates_empty S HS) in Hd. now rewrite Hd.
Qed.

Lemma validate_tag_groups_strict (self : TORI.t) (b : bool) (self' : TORI.t) :
  TORI.validate_tag_groups false self = TORI.Returned b self'
  <-> b = true /\ self' = self /\ unique (TORI.tag_groups self).
Proof.
  unfold TORI.validate_tag_groups.
  rewrite (mbind_returned _ _ self self self) by reflexivity.
  apply (uniqueness_check_strict (TORI.tag_groups self)
           (fun dups => TagGroupsNotUnique (map TagGroup.__repr__ dups))).
Qed.

Lemma validate_tags_strict (self : TORI.t) (b : bool) (self' : TORI.t) :
  TORI.validate_tags false self = TORI.Returned b self'
  <-> b = true /\ self' = self
      /\ existsb tag_lacks_attribute (TORI.tags self) = false
      /\ unique (TORI.tags self).
Proof.
  unfold TORI.validate_tags.
  rewrite (mbind_returned _ _ self self self) by reflexivity.
  destruct (existsb tag_lacks_attribute (TORI.tags self)) eqn:E.
  - destruct (check_tag_attributes_raises _ true self E)
      as (t & _ & [Hr | Hr]);
      rewrite (mbind_raised _ _ _ _ _ Hr);
      (split; [discriminate | intros (_ & _ & Hx & _); discriminate]).
  - rewrite (mbind_returned _ _ self true self)
      by now apply check_tag_attributes_passes.
    rewrite (uniqueness_check_strict (TORI.tags self)
               (fun dups => TagsNotUnique (map Tag.__repr__ dups))).
    tauto.
Qed.

Lemma existsb_first {A : Type} (f : A -> bool) (l : list A) :
  existsb f l = true ->
  exists before x after,
    l = before ++ x :: after /\ existsb f before = false /\ f x = true.
Proof.
  induction l as [|a l IH]; cbn; [discriminate|].
  destruct (f a) eqn:E; cbn.
  - intros _. now exists [], a, l.
  - intros Hl. destruct (IH Hl) as (before & x & after & -> & Hb & Hx).
    exists (a :: before), x, after. cbn. rewrite E. now repeat split.
Qed.

(** The attribute loop of [validate_references] raises at the first
    reference that lacks its title or its authors. *)
Lemma check_reference_attributes_first (before after : list Reference.t)
  (r : Reference.t) (valid : bool) (self : TORI.t) :
  existsb reference_lacks_attribute before = false ->
  reference_lacks_attribute r = true ->
  TORI.check_reference_attributes (before ++ r :: after) valid self
  = TORI.Raised (reference_attribute_error r) self.
Proof.
  revert valid. induction before as [|r0 before IH]; intros valid Hb Hr.
  - cbn [app TORI.check_reference_attributes].
    unfold reference_attribute_error, reference_lacks_attribute in *.
    destruct (truthy (Reference.title r)); cbn [negb] in *.
    + cbn in Hr. rewrite Hr.
      rewrite (mbind_returned _ _ self valid self) by reflexivity.
      reflexivity.
    + reflexivity.
  - cbn [existsb] in Hb. apply orb_false_iff in Hb. destruct Hb as [H0 Hb].
    unfold reference_lacks_attribute in H0. apply orb_false_iff in H0.
    destruct H0 as [Ht Ha].
    cbn [app TORI.check_reference_attributes]. rewrite Ht, Ha.
    rewrite (mbind_returned _ _ self valid self) by reflexivity.
    rewrite (mbind_returned _ _ self valid self) by reflexivity.
    now apply IH.
Qed.

Lemma validate_references_strict (self : TORI.t) (b : bool) (self' : TORI.t) :
  TORI.validate_references false self = TORI.Returned b self'
  <-> b = true /\ self' = self
      /\ existsb reference_lacks_attribute (TORI.references self) = false
      /\ unique (TORI.references self).
Proof.
  unfold TORI.validate_references.
  rewrite (mbind_returned _ _ self self self) by reflexivity.
  destruct (existsb reference_lacks_attribute (TORI.references self)) eqn:E.
  - destruct (existsb_first _ _ E) as (before & r & after & Hrs & Hb & Hr).
    pose proof (check_reference_attributes_first before after r true self
                  Hb Hr) as Hraise.
    rewrite <- Hrs in Hraise. rewrite (mbind_raised _ _ _ _ _ Hraise).
    split; [discriminate | intros (_ & _ & Hx & _); discriminate].
  - rewrite (mbind_returned _ _ self true self)
      by now apply check_reference_attributes_passes.
    rewrite (uniqueness_check_strict (TORI.references self)
               (fun dups => ReferencesNotUnique (map Reference.__repr__ dups))).
    tauto.
Qed.

(** X6: [validate()] (nothing collected) returns exactly when the catalog is
    valid: the elements hash, no two tag groups, tags or references are
    equal, no tag lacks its name or description and no reference its title
    or authors.  It then returns [True] and leaves [_errors] empty; it never
    returns [False]. *)
Theorem validate_returns_iff_valid (c : TORI.t) (r : TORI.validate_result)
  (c' : TORI.t) :
  TORI.validate false c = TORI.Returned r c'
  <-> r = TORI.Valid true /\ c' = TORI.set_errors [] c /\ valid_catalog c.
Proof.
  unfold TORI.validate, valid_catalog.
  rewrite (mbind_returned _ _ c tt (TORI.set_errors [] c)) by reflexivity.
  set (c0 := TORI.set_errors [] c).
  change (TORI.tag_groups c) with (TORI.tag_groups c0).
  change (TORI.tags c) with (TORI.tags c0).
  change (TORI.references c) with (TORI.references c0).
  split.
  - intros Hrun.
    apply mbind_inv in Hrun. destruct Hrun as (b1 & s1 & H1 & Hrun).
    apply validate_tag_groups_strict in H1. destruct H1 as (-> & -> & U1).
    apply mbind_inv in Hrun. destruct Hrun as (b2 & s2 & H2 & Hrun).
    apply validate_tags_strict in H2. destruct H2 as (-> & -> & A2 & U2).
    apply mbind_inv in Hrun. destruct Hrun as (b3 & s3 & H3 & Hrun).
    apply validate_references_strict in H3.
    destruct H3 as (-> & -> & A3 & U3).
    cbn in Hrun. injection Hrun as <- <-. tauto.
  - intros (-> & -> & U1 & A2 & U2 & A3 & U3).
    rewrite (mbind_returned _ _ c0 true c0)
      by now apply validate_tag_groups_strict.
    rewrite (mbind_returned _ _ c0 true c0) by now apply validate_tags_strict.
    rewrite (mbind_returned _ _ c0 true c0)
      by now apply validate_references_strict.
    reflexivity.
Qed.

(** *** Nothing but [_errors] changes *)

Lemma set_errors_twice (e1 e2 : list scheme_message) (self : TORI.t) :
  TORI.set_errors e2 (TORI.set_errors e1 self) = TORI.set_errors e2 self.
Proof. reflexivity. Qed.

Lemma set_errors_same (self : TORI.t) :
  TORI.set_errors (TORI._errors self) self = self.
Proof. now destruct self. Qed.

Lemma changes_only_errors_ret {A : Type} (a : A) :
  changes_only_errors (TORI.ret a).
Proof. intros self. exists (TORI._errors self). apply eq_sym, set_errors_same. Qed.

Lemma changes_only_errors_lift {A : Type} (r : result A) :
  changes_only_errors (TORI.lift r).
Proof.
  intros self. exists (TORI._errors self).
  destruct r; apply eq_sym, set_errors_same.
Qed.

Lemma changes_only_errors_raise (message : scheme_message) (collect : bool) :
  changes_only_errors (TORI._raise_error message collect).
Proof.
  intros self. unfold TORI._raise_error. destruct collect; cbn.
  - now eexists.
  - exists (TORI._errors self). apply eq_sym, set_errors_same.
Qed.

Lemma changes_only_errors_bind {A B : Type} (m : TORI.method A)
  (k : A -> TORI.method B) :
  changes_only_errors m -> (forall a, changes_only_errors (k a)) ->
  changes_only_errors (TORI.mbind m k).
Proof.
  intros Hm Hk self. unfold TORI.mbind.
  destruct (Hm self) as [e1 H1].
  destruct (m self) as [a s1|e s1]; cbn in H1; subst s1.
  - destruct (Hk a (TORI.set_errors e1 self)) as [e2 H2].
    exists e2. now rewrite H2.
  - now exists e1.
Qed.

Lemma changes_only_errors_get_bind {B : Type} (k : TORI.t -> TORI.method B) :
  (forall a, changes_only_errors (k a)) ->
  changes_only_errors (TORI.mbind TORI.get k).
Proof.
  intros Hk. apply changes_only_errors_bind; [|exact Hk].
  intros self. exists (TORI._errors self). apply eq_sym, set_errors_same.
Qed.

Ltac only_errors :=
  repeat match goal with
         | |- changes_only_errors (TORI.mbind TORI.get _) =>
             apply changes_only_errors_get_bind; intros ?
         | |- changes_only_errors (TORI.mbind _ _) =>
             apply changes_only_errors_bind; [|intros ?]
         | |- changes_only_errors (TORI.ret _) =>
             apply changes_only_errors_ret
         | |- changes_only_errors (TORI.lift _) =>
             apply changes_only_errors_lift
         | |- changes_only_errors (TORI._raise_error _ _) =>
             apply changes_only_errors_raise
         | |- changes_only_errors (if ?b then _ else _) => destruct b
         end.

Lemma changes_only_errors_tag_loop (ts : list Tag.t) (valid : bool) :
  changes_only_errors (TORI.check_tag_attributes ts valid).
Proof.
  revert valid. induction ts as [|t ts IH]; intros valid;
    cbn [TORI.check_tag_attributes]; only_errors; apply IH.
Qed.

Lemma changes_only_errors_reference_loop (rs : list Reference.t)
  (valid : bool) :
  changes_only_errors (TORI.check_reference_attributes rs valid).
Proof.
  revert valid. induction rs as [|r rs IH]; intros valid;
    cbn [TORI.check_reference_attributes]; only_errors; apply IH.
Qed.

Lemma changes_only_errors_validate (collect : bool) :
  changes_only_errors (TORI.validate collect).
Proof.
  unfold TORI.validate, TORI.validate_tag_groups, TORI.validate_tags,
    TORI.validate_references.
  apply changes_only_errors_bind; [intros self; now exists []|intros _].
  only_errors;
    first [ apply changes_only_errors_tag_loop
          | apply changes_only_errors_reference_loop ].
Qed.

(** X7: whatever it returns or raises, [validate] changes nothing of the
    catalog but [_errors] (the elements and the keys stay), and the errors
    of an earlier run do not count: validating the catalog again, as the
    first run left it, has the same outcome. *)
Theorem validate_changes_only_errors (collect : bool) (c : TORI.t) :
  (exists errors,
      TORI.state_of (TORI.validate collect c) = TORI.set_errors errors c)
  /\ TORI.validate collect (TORI.state_of (TORI.validate collect c))
     = TORI.validate collect c.
Proof.
  destruct (changes_only_errors_validate collect c) as [errors He].
  split; [now exists errors|]. rewrite He. reflexivity.
Qed.

(** X8: in collect mode, when no tag and no reference lacks an attribute,
    [validate] returns at most three messages, one for each uniqueness check
    that fails, and they are what [_errors] holds afterwards. *)
Theorem validate_collect_at_most_three (c : TORI.t) :
  forallb py_hashable (TORI.tag_groups c) = true ->
  forallb py_hashable (TORI.tags c) = true ->
  forallb py_hashable (TORI.references c) = true ->
  existsb tag_lacks_attribute (TORI.tags c) = false ->
  existsb reference_lacks_attribute (TORI.references c) = false ->
  exists errors,
    TORI.validate true c
    = TORI.Returned (TORI.Errors errors) (TORI.set_errors errors c)
    /\ length errors <= 3
    /\ (errors = [] <-> valid_catalog c).
Proof.
  intros Hg Ht Hr Hta Hra.
  pose proof (validate_collects_uniqueness_errors c Hg Ht Hr Hta Hra) as Hrun.
  cbn zeta in Hrun. eexists. split; [exact Hrun|].
  pose proof (find_duplicates_repeats_after _ Hg) as Dg.
  pose proof (find_duplicates_repeats_after _ Ht) as Dt.
  pose proof (find_duplicates_repeats_after _ Hr) as Dr.
  rewrite repeats_after_nil in Dg. rewrite repeats_after_nil in Dt.
  rewrite repeats_after_nil in Dr.
  pose proof (find_duplicates_empty _ Hg) as Eg.
  pose proof (find_duplicates_empty _ Ht) as Et.
  pose proof (find_duplicates_empty _ Hr) as Er.
  rewrite Dg in Eg. rewrite Dt in Et. rewrite Dr in Er.
  unfold valid_catalog, unique, uniqueness_errors.
  destruct (repeats (TORI.tag_groups c)), (repeats (TORI.tags c)),
    (repeats (TORI.references c)); cbn; (split; [lia|]);
    (split; [try discriminate; intros _; repeat split; try assumption;
             first [now apply Eg | now apply Et | now apply Er]
            | try reflexivity; intros [[_ Pg] [_ [[_ Pt] [_ [_ Pr]]]]];
              first [ apply Eg in Pg; discriminate
                    | apply Et in Pt; discriminate
                    | apply Er in Pr; discriminate ] ]).
Qed.

Lemma validate_collect_at_most_three_witness :
  exists errors,
    TORI.validate true catalog_with_duplicates
    = TORI.Returned (TORI.Errors errors)
                    (TORI.set_errors errors catalog_with_duplicates)
    /\ length errors <= 3
    /\ (errors = [] <-> valid_catalog catalog_with_duplicates).
Proof.
  apply (validate_collect_at_most_three catalog_with_duplicates);
    reflexivity.
Defined.

(** ** Validation: the errors of the attribute checks *)

Lemma check_tag_attributes_first (before after : list Tag.t) (t : Tag.t)
  (valid : bool) (self : TORI.t) :
  existsb tag_lacks_attribute before = false ->
  tag_lacks_attribute t = true ->
  TORI.check_tag_attributes (before ++ t :: after) valid self
  = TORI.Raised (tag_attribute_error t) self.
Proof.
  revert valid. induction before as [|t0 before IH]; intros valid Hb Ht.
  - cbn [app TORI.check_tag_attributes].
    unfold tag_attribute_error, tag_lacks_attribute in *.
    destruct (truthy (Tag.name t)); cbn [negb] in *.
    + cbn in Ht. rewrite Ht.
      rewrite (mbind_returned _ _ self valid self) by reflexivity.
      reflexivity.
    + reflexivity.
  - cbn [existsb] in Hb. apply orb_false_iff in Hb. destruct Hb as [H0 Hb].
    unfold tag_lacks_attribute in H0. apply orb_false_iff in H0.
    destruct H0 as [Hn Hd].
    cbn [app TORI.check_tag_attributes]. rewrite Hn, Hd.
    rewrite (mbind_returned _ _ self valid self) by reflexivity.
    rewrite (mbind_returned _ _ self valid self) by reflexivity.
    now apply IH.
Qed.

(** X9: in both modes, [validate_tags] raises [TORISchemeError] for the
    first tag that lacks its name or its description (the name is reported
    when both are missing); nothing is collected and the uniqueness of the
    tags is not checked. *)
Theorem validate_tags_raises_at_first_lacking (collect : bool)
  (self : TORI.t) (before after : list Tag.t) (t : Tag.t) :
  TORI.tags self = before ++ t :: after ->
  existsb tag_lacks_attribute before = false ->
  tag_lacks_attribute t = true ->
  TORI.validate_tags collect self
  = TORI.Raised (tag_attribute_error t) self.
Proof.
  intros Hts Hb Ht. unfold TORI.validate_tags.
  rewrite (mbind_returned _ _ self self self) by reflexivity.
  apply mbind_raised. rewrite Hts. now apply check_tag_attributes_first.
Qed.

Lemma validate_tags_raises_at_first_lacking_witness :
  TORI.validate_tags true catalog_lacking_attributes
  = TORI.Raised
      (TORISchemeError (TagMissingName (Repr "Tag" (VStr ""))))
      catalog_lacking_attributes.
Proof.
  apply (validate_tags_raises_at_first_lacking
           true catalog_lacking_attributes
           [Tag.make (VStr "t") (VStr "a tag")
                     (TagGroup.make (VStr "g") (VStr "a group"))]
           [Tag.make (VStr "v") VNone
                     (TagGroup.make (VStr "g") (VStr "a group"))]
           (Tag.make (VStr "") (VStr "nameless")
                     (TagGroup.make (VStr "g") (VStr "a group"))));
    reflexivity.
Defined.

(** X10: in both modes, [validate_references] raises [TORISchemeError] for
    the first reference that lacks its title or has no author (the title is
    reported when both are missing). *)
Theorem validate_references_raises_at_first_lacking (collect : bool)
  (self : TORI.t) (before after : list Reference.t) (r : Reference.t) :
  TORI.references self = before ++ r :: after ->
  existsb reference_lacks_attribute before = false ->
  reference_lacks_attribute r = true ->
  TORI.validate_references collect self
  = TORI.Raised (reference_attribute_error r) self.
Proof.
  intros Hrs Hb Hr. unfold TORI.validate_references.
  rewrite (mbind_returned _ _ self self self) by reflexivity.
  apply mbind_raised. rewrite Hrs.
  now apply check_reference_attributes_first.
Qed.

Lemma validate_references_raises_at_first_lacking_witness :
  TORI.validate_references true catalog_lacking_attributes
  = TORI.Raised
      (TORISchemeError (ReferenceMissingAuthor (Repr "Reference" (VStr "q"))))
      catalog_lacking_attributes.
Proof.
  set (t := Tag.make (VStr "t") (VStr "a tag")
                     (TagGroup.make (VStr "g") (VStr "a group"))).
  apply (validate_references_raises_at_first_lacking
           true catalog_lacking_attributes
           [Reference.make (VStr "r") [VStr "a"] [t] VNone] []
           (Reference.make (VStr "q") [] [t] VNone));
    reflexivity.
Defined.

(** X11: a tag group whose name or description does not hash (a list or a
    dict) makes [validate] raise [TypeError], in both modes, before any rule
    is checked. *)
Theorem validate_raises_type_error (collect : bool) (c : TORI.t) :
  forallb py_hashable (TORI.tag_groups c) = false ->
  TORI.validate collect c
  = TORI.Raised (TypeError Unhashable) (TORI.set_errors [] c).
Proof.
  intros Hh. unfold TORI.validate.
  rewrite (mbind_returned _ _ c tt (TORI.set_errors [] c)) by reflexivity.
  apply mbind_raised. now apply validate_tag_groups_unhashable.
Qed.

Lemma validate_raises_type_error_witness :
  TORI.validate true catalog_with_list_description
  = TORI.Raised (TypeError Unhashable)
                (TORI.set_errors [] catalog_with_list_description).
Proof.
  apply (validate_raises_type_error true catalog_with_list_description).
  reflexivity.
Defined.

(** ** The containment query *)

Lemma tuple_contains_map {V : Type} (key : V -> value) (k : value)
  (l : list V) :
  tuple_contains k (map key l) = true
  <-> exists v, In v l /\ py_eq (key v) k = true.
Proof.
  unfold tuple_contains. rewrite existsb_exists. split.
  - intros (e & He & Heq). apply in_map_iff in He.
    destruct He as (v & <- & Hv). now exists v.
  - intros (v & Hv & Heq). exists (key v). split; [|assumption].
    now apply in_map.
Qed.

Lemma contains_constructed (tag_groups : list TagGroup.t) (tags : list Tag.t)
  (references : list Reference.t) (errors : list scheme_message)
  (x : scheme_element) :
  let c := TORI.set_errors errors (TORI.__init__ tag_groups tags references) in
  TORI.___contains__ c x = Some true <-> key_known c x.
Proof.
  cbn zeta. unfold TORI.___contains__, key_known, elements.
  cbn [TORI.set_errors TORI.__init__ TORI._set_keys TORI.keys
       TORI.tag_groups TORI.tags TORI.references].
  split.
  - intros Hc. injection Hc as Hc.
    destruct x as [g|t|r]; cbn [element_type_of key_attr TORI.keys_of] in Hc;
      cbn [TORI.TagGroup_keys TORI.Tag_keys TORI.Reference_keys] in Hc;
      apply tuple_contains_map in Hc; destruct Hc as (v & Hv & Heq).
    + exists (ATagGroup v). repeat split; [|assumption].
      apply in_or_app. left. now apply in_map.
    + exists (ATag v). repeat split; [|assumption].
      apply in_or_app. right. apply in_or_app. left. now apply in_map.
    + exists (AReference v). repeat split; [|assumption].
      apply in_or_app. right. apply in_or_app. right. now apply in_map.
  - intros (y & Hy & Hty & Heq). f_equal.
    rewrite !in_app_iff, !in_map_iff in Hy.
    destruct x as [g|t|r], y as [g'|t'|r']; try discriminate;
      cbn [element_type_of key_attr TORI.keys_of];
      cbn [TORI.TagGroup_keys TORI.Tag_keys TORI.Reference_keys];
      apply tuple_contains_map;
      destruct Hy as [(v & Hv & Hin) | [(v & Hv & Hin) | (v & Hv & Hin)]];
      try discriminate; injection Hv as ->; eauto.
Qed.

Lemma key_attr_refl (x : scheme_element) :
  py_eq (key_attr x) (key_attr x) = true.
Proof. apply value_eq_refl. Qed.

(** X12: for a catalog made by the constructor, also after any validation,
    the containment query answers [True] exactly for the elements whose
    type and key are those of an element of the catalog: every element of
    the catalog is found, and so is any element that shares the key of one,
    whatever its other attributes; validation does not change the answer. *)
Theorem contains_by_key (tag_groups : list TagGroup.t) (tags : list Tag.t)
  (references : list Reference.t) (collect : bool) (x : scheme_element) :
  let c := TORI.__init__ tag_groups tags references in
  let c' := TORI.state_of (TORI.validate collect c) in
  (TORI.___contains__ c x = Some true <-> key_known c x)
  /\ (In x (elements c) -> TORI.___contains__ c x = Some true)
  /\ TORI.___contains__ c' x = TORI.___contains__ c x.
Proof.
  cbn zeta. set (c := TORI.__init__ tag_groups tags references).
  assert (Hiff : TORI.___contains__ c x = Some true <-> key_known c x).
  { apply (contains_constructed tag_groups tags references []). }
  split; [exact Hiff|]. split.
  - intros Hx. apply Hiff. exists x. repeat split; [assumption|].
    apply key_attr_refl.
  - destruct (changes_only_errors_validate collect c) as [errors ->].
    reflexivity.
Qed.

Lemma contains_by_key_witness :
  TORI.___contains__ sample_catalog
    (ATagGroup (TagGroup.make (VStr "g") (VStr "a group")))
  = Some true.
Proof.
  apply (proj1 (proj2 (contains_by_key
                         [DEFAULT_TAG_GROUP;
                          TagGroup.make (VStr "g") (VStr "a group")]
                         _ _ false _))).
  right. left. reflexivity.
Defined.

(** X13: every element of the catalog that [load_dict] returns is found by
    the containment query of the catalog, and the catalog comes with no
    error recorded: [load_dict] does not validate. *)
Theorem load_dict_elements_contained (tori_dict : dict) (c : TORI.t)
  (x : scheme_element) :
  load_dict tori_dict = Ok c -> In x (elements c) ->
  TORI.___contains__ c x = Some true /\ TORI._errors c = [].
Proof.
  intros Hrun Hx. apply load_dict_stages in Hrun.
  destruct Hrun as (tgd & td & rd & tag_groups & tgm & tags & tm & refs
                    & _ & _ & _ & _ & _ & _ & ->).
  split; [|reflexivity].
  apply (contains_constructed tag_groups tags refs []).
  exists x. repeat split; [assumption | apply key_attr_refl].
Qed.

Lemma load_dict_elements_contained_witness :
  TORI.___contains__ sample_catalog
    (AReference
       (Reference.make (VStr "r") [VStr "a"]
          [Tag.make (VStr "t") (VStr "a tag")
                    (TagGroup.make (VStr "g") (VStr "a group"))] VNone))
  = Some true
  /\ TORI._errors sample_catalog = [].
Proof.
  apply (load_dict_elements_contained sample_mapping sample_catalog).
  - reflexivity.
  - right. right. right. left. reflexivity.
Defined.

(** ** The loader: the top-level keys *)

Lemma dict_lookup_store_str {V : Type} (k k' : string) (v : V)
  (d : list (string * V)) :
  dict_lookup k (dict_store k' v d)
  = if (k' =? k)%string then Some v else dict_lookup k d.
Proof.
  induction d as [|[k0 v0] d IH]; cbn.
  - reflexivity.
  - destruct (k0 =? k')%string eqn:E0; cbn.
    + apply String.eqb_eq in E0. subst k0.
      now destruct (k' =? k)%string.
    + destruct (k0 =? k)%string eqn:E1; [|exact IH].
      apply String.eqb_eq in E1. subst k0.
      rewrite String.eqb_sym in E0. now rewrite E0.
Qed.

Lemma find_snoc {A : Type} (f : A -> bool) (l : list A) (a : A) :
  find f (l ++ [a])
  = match find f l with Some x => Some x | None => if f a then Some a else None end.
Proof.
  induction l as [|b l IH]; cbn; [reflexivity|].
  now destruct (f b).
Qed.

(** The key map gives, for a lower-case key, the last key of the mapping
    that has this lower case. *)
Lemma key_map_lookup (k : string) (ks : list string)
  (key_map : list (string * string)) :
  dict_lookup k
    (fold_left (fun km k' => dict_store (lower k') k' km) ks key_map)
  = match find (fun k' => lower k' =? k) (rev ks) with
    | Some k' => Some k'
    | None => dict_lookup k key_map
    end.
Proof.
  revert key_map. induction ks as [|k0 ks IH]; intros key_map; cbn [fold_left rev].
  - reflexivity.
  - rewrite IH, find_snoc, dict_lookup_store_str.
    destruct (find (fun k' => lower k' =? k) (rev ks)); [reflexivity|].
    now destruct (lower k0 =? k)%string.
Qed.

Lemma key_map_of_lookup (k : string) (tori_dict : dict) :
  dict_lookup k (key_map_of tori_dict)
  = find (fun k' => lower k' =? k) (rev (map fst tori_dict)).
Proof.
  unfold key_map_of. rewrite key_map_lookup.
  now destruct (find _ _).
Qed.

Lemma find_none_existsb {A : Type} (f : A -> bool) (l : list A) :
  find f l = None <-> existsb f l = false.
Proof.
  induction l as [|a l IH]; cbn; [tauto|].
  destruct (f a); cbn; [split; discriminate | exact IH].
Qed.

Lemma existsb_rev {A : Type} (f : A -> bool) (l : list A) :
  existsb f (rev l) = existsb f l.
Proof.
  induction l as [|a l IH]; cbn; [reflexivity|].
  rewrite existsb_app, IH. cbn. rewrite orb_false_r. apply orb_comm.
Qed.

Lemma key_map_of_has_key (k : string) (tori_dict : dict) :
  has_top_level_key k tori_dict = false
  <-> dict_lookup k (key_map_of tori_dict) = None.
Proof.
  rewrite key_map_of_lookup, find_none_existsb, existsb_rev.
  reflexivity.
Qed.

Lemma dict_lookup_key_In {V : Type} (k : string) (d : list (string * V)) :
  In k (map fst d) -> exists v, dict_lookup k d = Some v.
Proof.
  induction d as [|[k0 v0] d IH]; cbn; [intros []|].
  destruct (k0 =? k)%string eqn:E; [eauto|].
  intros [Heq|Hin]; [|now apply IH].
  subst k0. now rewrite String.eqb_refl in E.
Qed.

(** A key that the mapping has, in some case, gives a value. *)
Lemma top_level_value_found (k : string) (tori_dict : dict) :
  has_top_level_key k tori_dict = true ->
  exists v, top_level_value k (key_map_of tori_dict) tori_dict = Ok v.
Proof.
  intros Hk. unfold top_level_value, getitem at 1.
  rewrite key_map_of_lookup.
  destruct (find (fun k' => lower k' =? k) (rev (map fst tori_dict)))
    as [k'|] eqn:E.
  - apply find_some in E. destruct E as [Hin _]. apply in_rev in Hin.
    destruct (dict_lookup_key_In k' tori_dict Hin) as [v Hv].
    exists v. cbn. unfold getitem. now rewrite Hv.
  - apply find_none_existsb in E. rewrite existsb_rev in E.
    unfold has_top_level_key in Hk. congruence.
Qed.

Lemma check_top_level_run (ks : list string) (tori_dict : dict) :
  check_top_level ks (key_map_of tori_dict)
  = match find (fun k => negb (has_top_level_key k tori_dict)) ks with
    | Some k => Raise (TORIParseError (MissingTopLevelKey k))
    | None => Ok tt
    end.
Proof.
  induction ks as [|k ks IH]; cbn; [reflexivity|].
  destruct (has_top_level_key k tori_dict) eqn:E; cbn.
  - destruct (dict_lookup k (key_map_of tori_dict)) eqn:El; [exact IH|].
    apply key_map_of_has_key in El. congruence.
  - apply key_map_of_has_key in E. now rewrite E.
Qed.

(** X14: [load_dict] looks for [tag_groups], [tags] and [references], in
    this order, among the keys of the mapping put in lower case; it raises
    the error ['Dict missing top-level key: {}'] for the first that is not
    there, and when the three are there it finds a value for each. *)
Theorem load_dict_missing_top_level_key (tori_dict : dict) :
  match find (fun k => negb (has_top_level_key k tori_dict)) top_level_keys
  with
  | Some k => load_dict tori_dict = Raise (TORIParseError (MissingTopLevelKey k))
  | None =>
      forall k, In k top_level_keys ->
                exists v,
                  top_level_value k (key_map_of tori_dict) tori_dict = Ok v
  end.
Proof.
  pose proof (check_top_level_run top_level_keys tori_dict) as Hrun.
  destruct (find (fun k => negb (has_top_level_key k tori_dict))
                 top_level_keys) as [k|] eqn:E.
  - unfold load_dict, top_level_lists.
    change [TORIDictKeys.TagGroups; TORIDictKeys.Tags; TORIDictKeys.References]
      with top_level_keys.
    now rewrite Hrun.
  - intros k Hk. apply top_level_value_found.
    pose proof (find_none _ _ E k Hk) as Hn. cbn in Hn.
    now destruct (has_top_level_key k tori_dict).
Qed.

Lemma NoDup_map_In_eq {A B : Type} (f : A -> B) (l : list A) (x y : A) :
  NoDup (map f l) -> In x l -> In y l -> f x = f y -> x = y.
Proof.
  induction l as [|a l IH]; cbn; [intros _ []|].
  intros Hnd Hx Hy Hf. apply NoDup_cons_iff in Hnd. destruct Hnd as [Ha Hnd].
  destruct Hx as [<-|Hx], Hy as [<-|Hy]; try reflexivity.
  - exfalso. apply Ha. rewrite Hf. now apply in_map.
  - exfalso. apply Ha. rewrite <- Hf. now apply in_map.
  - now apply IH.
Qed.

Lemma dict_lookup_NoDup {V : Type} (k : string) (v : V)
  (d : list (string * V)) :
  NoDup (map fst d) -> In (k, v) d -> dict_lookup k d = Some v.
Proof.
  induction d as [|[k0 v0] d IH]; cbn; [intros _ []|].
  intros Hnd Hin. apply NoDup_cons_iff in Hnd. destruct Hnd as [Hk0 Hnd].
  destruct Hin as [Heq|Hin].
  - injection Heq as -> ->. now rewrite String.eqb_refl.
  - destruct (k0 =? k)%string eqn:E; [|now apply IH].
    apply String.eqb_eq in E. subst k0. exfalso. apply Hk0.
    apply (in_map fst) in Hin. exact Hin.
Qed.

(** X15: the top-level keys are read whatever their case: in a mapping
    whose keys are ASCII strings, no two of them the same up to case, the
    value stored under a key is the one found for the key put in lower
    case.  (With a key outside ASCII, [str.lower()] follows the Unicode case
    mapping and two keys may fall together in Python that [lower] keeps
    apart.) *)
Theorem top_level_value_any_case (tori_dict : dict) (k : string) (v : value) :
  ascii_keys tori_dict = true ->
  NoDup (map lower (map fst tori_dict)) -> In (k, v) tori_dict ->
  top_level_value (lower k) (key_map_of tori_dict) tori_dict = Ok v.
Proof.
  intros _ Hnd Hin.
  assert (Hk : In k (map fst tori_dict)) by (apply (in_map fst) in Hin; exact Hin).
  unfold top_level_value, getitem at 1. rewrite key_map_of_lookup.
  destruct (find (fun k' => lower k' =? lower k) (rev (map fst tori_dict)))
    as [k'|] eqn:E.
  - apply find_some in E. destruct E as [Hk' Heq].
    apply in_rev in Hk'. apply String.eqb_eq in Heq.
    assert (k' = k) as -> by
        (apply (NoDup_map_In_eq lower (map fst tori_dict)); assumption).
    cbn [bind]. unfold getitem.
    rewrite (dict_lookup_NoDup k v tori_dict); [reflexivity| |assumption].
    now apply NoDup_map_inv in Hnd.
  - apply find_none_existsb in E. rewrite existsb_rev in E.
    assert (existsb (fun k' => lower k' =? lower k) (map fst tori_dict) = true).
    { apply existsb_exists. exists k. split; [assumption|].
      apply String.eqb_refl. }
    congruence.
Qed.

Lemma top_level_value_any_case_witness :
  top_level_value (lower "TAGS") (key_map_of mapping_in_other_case)
                  mapping_in_other_case
  = Ok (VList []).
Proof.
  apply (top_level_value_any_case mapping_in_other_case "TAGS" (VList [])).
  - reflexivity.
  - repeat (constructor; [cbn; intuition discriminate|]). constructor.
  - right. left. reflexivity.
Defined.

(** ** The loader: lists of dicts *)

Lemma check_elements_ok (name : string) (l : list value) (ds : list dict) :
  check_elements name l = Ok ds <-> l = map VDict ds.
Proof.
  revert ds. induction l as [|e l IH]; intros ds; cbn.
  - split.
    + intros Hr. injection Hr as <-. reflexivity.
    + intros Hl. destruct ds; [reflexivity | discriminate].
  - destruct e as [| b | z | s | l' | d]; try (split; [discriminate|]);
      try (intros Hl; destruct ds; discriminate).
    split.
    + intros Hr. invert_bind Hr as ds' Hds. injection Hr as <-.
      apply IH in Hds. now subst l.
    + intros Hl. destruct ds as [|d0 ds]; [discriminate|].
      injection Hl as -> ->.
      rewrite (proj2 (IH ds) eq_refl). reflexivity.
Qed.

Lemma check_elements_first_bad (name : string) (ds : list dict) (e : value)
  (rest : list value) :
  is_dict e = false ->
  check_elements name (map VDict ds ++ e :: rest)
  = Raise (TORIParseError (ElementNotADict name (type_of e) e)).
Proof.
  intros He. induction ds as [|d ds IH]; cbn.
  - destruct e; try reflexivity; discriminate.
  - now rewrite IH.
Qed.

(** X16: each of the three top-level values passes the check exactly when
    it is a list of dicts; a value that is not a list is refused with the
    type of the tag-groups value in the message, and a list is refused at
    its first element that is not a dict, with the type of the element and
    the element. *)
Theorem check_list_lists_of_dicts (name : string) (tag_group_dicts l : value) :
  (forall ds, check_list name tag_group_dicts l = Ok ds
              <-> l = VList (map VDict ds))
  /\ (is_list l = false ->
      check_list name tag_group_dicts l
      = Raise (TORIParseError (NotAList name (type_of tag_group_dicts))))
  /\ (forall ds e rest,
         l = VList (map VDict ds ++ e :: rest) -> is_dict e = false ->
         check_list name tag_group_dicts l
         = Raise (TORIParseError (ElementNotADict name (type_of e) e))).
Proof.
  split; [|split].
  - intros ds. destruct l as [| b | z | s | l' | d]; cbn;
      try (split; discriminate).
    rewrite check_elements_ok. split; [now intros -> | now intros [= ->]].
  - destruct l; cbn; try reflexivity; discriminate.
  - intros ds e rest -> He. cbn. now apply check_elements_first_bad.
Qed.

Lemma top_level_value_key (k : string) (tori_dict : dict) (v : value) :
  top_level_value k (key_map_of tori_dict) tori_dict = Ok v ->
  has_top_level_key k tori_dict = true.
Proof.
  intros Hv. destruct (has_top_level_key k tori_dict) eqn:E; [reflexivity|].
  apply key_map_of_has_key in E. unfold top_level_value, getitem at 1 in Hv.
  rewrite E in Hv. discriminate.
Qed.

(** X17: when the value of [tags] or of [references] is not a list, the
    error of [load_dict] gives [list] as the type that was passed, whatever
    the value is: the message formats the type of the tag-groups value,
    which has passed the check. *)
Theorem load_dict_reports_type_of_tag_groups (tori_dict : dict)
  (tag_group_dicts tag_dicts reference_dicts : value)
  (tag_group_list : list dict) :
  top_level_value TORIDictKeys.TagGroups (key_map_of tori_dict) tori_dict
  = Ok tag_group_dicts ->
  top_level_value TORIDictKeys.Tags (key_map_of tori_dict) tori_dict
  = Ok tag_dicts ->
  top_level_value TORIDictKeys.References (key_map_of tori_dict) tori_dict
  = Ok reference_dicts ->
  check_list "Tag Groups" tag_group_dicts tag_group_dicts = Ok tag_group_list ->
  (is_list tag_dicts = false ->
   load_dict tori_dict = Raise (TORIParseError (NotAList "Tags" list_type)))
  /\ (forall tag_list,
         check_list "Tags" tag_group_dicts tag_dicts = Ok tag_list ->
         is_list reference_dicts = false ->
         load_dict tori_dict
         = Raise (TORIParseError (NotAList "References" list_type))).
Proof.
  intros Hg Ht Hr Hgl.
  assert (Hty : type_of tag_group_dicts = list_type).
  { destruct tag_group_dicts; try discriminate. reflexivity. }
  assert (Hcheck : check_top_level top_level_keys (key_map_of tori_dict)
                   = Ok tt).
  { rewrite check_top_level_run. cbn.
    rewrite (top_level_value_key _ _ _ Hg), (top_level_value_key _ _ _ Ht),
      (top_level_value_key _ _ _ Hr). reflexivity. }
  unfold top_level_keys in Hcheck.
  split.
  - intros Hl. unfold load_dict, top_level_lists.
    rewrite Hcheck, Hg, Ht, Hr. cbn [bind]. rewrite Hgl. cbn [bind].
    destruct tag_dicts; try discriminate; cbn; now rewrite Hty.
  - intros tag_list Htl Hl. unfold load_dict, top_level_lists.
    rewrite Hcheck, Hg, Ht, Hr. cbn [bind]. rewrite Hgl. cbn [bind].
    rewrite Htl. cbn [bind].
    destruct reference_dicts; try discriminate; cbn; now rewrite Hty.
Qed.

Lemma load_dict_reports_type_of_tag_groups_witness :
  load_dict mapping_with_string_tags
  = Raise (TORIParseError (NotAList "Tags" list_type)).
Proof.
  apply (proj1 (load_dict_reports_type_of_tag_groups
                  mapping_with_string_tags (VList []) (VStr "t") (VList []) []
                  eq_refl eq_refl eq_refl eq_refl)).
  reflexivity.
Defined.

(** ** The loader: the keys of the element dicts *)

Lemma require_keys_run (missing : string -> parse_message)
  (slots : list string) (d : dict) :
  require_keys missing slots d
  = match first_missing slots d with
    | Some key => Raise (TORIParseError (missing key))
    | None => Ok tt
    end.
Proof.
  unfold first_missing. induction slots as [|key slots IH]; cbn;
    [reflexivity|].
  destruct (dict_lookup key d); [exact IH | reflexivity].
Qed.

Lemma build_tag_groups_app (l1 l2 : list dict) (tag_groups : list TagGroup.t) :
  build_tag_groups (l1 ++ l2) tag_groups
  = bind (build_tag_groups l1 tag_groups) (build_tag_groups l2).
Proof.
  revert tag_groups. induction l1 as [|d l1 IH]; intros tag_groups;
    [reflexivity|].
  cbn [app build_tag_groups].
  repeat match goal with
         | |- bind ?m _ = bind (bind ?m _) _ =>
             destruct m; cbn [bind]; [|reflexivity]
         end.
  apply IH.
Qed.

(** Building the tag groups fails only for a key that is missing. *)
Lemma build_tag_groups_complete (ds : list dict) (tag_groups : list TagGroup.t) :
  Forall (fun d => first_missing TagGroup.__slots__ d = None) ds ->
  exists built, build_tag_groups ds tag_groups = Ok built.
Proof.
  revert tag_groups. induction ds as [|d ds IH]; intros tag_groups Hall.
  - now exists tag_groups.
  - inversion Hall as [|d' ds' Hd Hds]; subst.
    cbn [build_tag_groups]. rewrite require_keys_run, Hd. cbn [bind].
    unfold first_missing in Hd. cbn in Hd.
    destruct (dict_lookup "name" d) as [name|] eqn:En; [|discriminate].
    destruct (dict_lookup "description" d) as [description|] eqn:Ed;
      [|discriminate].
    unfold TagGroup.__slots__. cbn [select_slots].
    unfold getitem at 1. rewrite En. cbn [bind].
    unfold getitem at 1. rewrite Ed. cbn [bind]. cbn.
    apply IH. assumption.
Qed.

(** X18: a dict of the input that lacks a key makes [load_dict] raise the
    structural error of its kind for the first key that is missing, in the
    order name, description(, group) or title, author, tags, when the
    loader reaches the dict: the dicts before it are built. *)
Theorem load_dict_missing_element_key (tori_dict : dict)
  (tag_group_dicts tag_dicts reference_dicts : list dict) :
  top_level_lists tori_dict = Ok (tag_group_dicts, tag_dicts, reference_dicts) ->
  (forall before d after key,
      tag_group_dicts = before ++ d :: after ->
      Forall (fun d => first_missing TagGroup.__slots__ d = None) before ->
      first_missing TagGroup.__slots__ d = Some key ->
      load_dict tori_dict = Raise (TORIParseError (TagGroupMissingKey key)))
  /\ (forall tag_group_map before d after built key,
         tag_group_index tag_group_dicts = Ok tag_group_map ->
         tag_dicts = before ++ d :: after ->
         build_tags tag_group_map before [] = Ok built ->
         first_missing Tag.__slots__ d = Some key ->
         load_dict tori_dict = Raise (TORIParseError (TagMissingKey key)))
  /\ (forall tag_map before d after built key,
         tag_index tag_group_dicts tag_dicts = Ok tag_map ->
         reference_dicts = before ++ d :: after ->
         build_references tag_map before [] = Ok built ->
         first_missing Reference.__required_slots__ d = Some key ->
         load_dict tori_dict
         = Raise (TORIParseError (ReferenceMissingKey key))).
Proof.
  intros Hlists. split; [|split].
  - intros before d after key -> Hbefore Hd.
    destruct (build_tag_groups_complete before [DEFAULT_TAG_GROUP] Hbefore)
      as [built Hbuilt].
    unfold load_dict. rewrite Hlists. cbn [bind].
    rewrite build_tag_groups_app, Hbuilt. cbn [bind build_tag_groups].
    now rewrite require_keys_run, Hd.
  - intros tgm before d after built key Hindex -> Hbuilt Hd.
    unfold tag_group_index in Hindex. invert_bind Hindex as tag_groups Htg.
    unfold load_dict. rewrite Hlists. cbn [bind].
    rewrite Htg. cbn [bind]. rewrite Hindex. cbn [bind].
    rewrite build_tags_app, Hbuilt. cbn [bind build_tags].
    now rewrite require_keys_run, Hd.
  - intros tm before d after built key Hindex -> Hbuilt Hd.
    unfold tag_index, tag_group_index in Hindex.
    invert_bind Hindex as tgm Htgm. invert_bind Htgm as tag_groups Htg.
    invert_bind Hindex as tags Htags.
    unfold load_dict. rewrite Hlists. cbn [bind].
    rewrite Htg. cbn [bind]. rewrite Htgm. cbn [bind].
    rewrite Htags. cbn [bind]. rewrite Hindex. cbn [bind].
    rewrite build_references_app, Hbuilt. cbn [bind build_references].
    now rewrite require_keys_run, Hd.
Qed.

Lemma load_dict_missing_element_key_witness :
  load_dict mapping_with_incomplete_group
  = Raise (TORIParseError (TagGroupMissingKey "description"))
  /\ load_dict mapping_with_incomplete_tag
     = Raise (TORIParseError (TagMissingKey "name"))
  /\ load_dict mapping_with_incomplete_reference
     = Raise (TORIParseError (ReferenceMissingKey "author")).
Proof.
  split; [|split].
  - eapply (proj1 (load_dict_missing_element_key
                     mapping_with_incomplete_group _ _ _ eq_refl)
                  [[("name", VStr "g"); ("description", VStr "a group")]]
                  _ []).
    + reflexivity.
    + repeat constructor.
    + reflexivity.
  - eapply (proj1 (proj2 (load_dict_missing_element_key
                            mapping_with_incomplete_tag _ _ _ eq_refl))
                  _ [] _ [] []); reflexivity.
  - eapply (proj2 (proj2 (load_dict_missing_element_key
                            mapping_with_incomplete_reference _ _ _ eq_refl))
                  _ [] _ [] []); reflexivity.
Defined.

(** ** Iterating a string *)

Lemma code_points_join (s : string) :
  (fst (code_points s) ++ str_join (snd (code_points s)))%string = s.
Proof.
  induction s as [|c s IH]; [reflexivity|].
  cbn [code_points]. destruct (code_points s) as [continuation items].
  cbn [fst snd] in IH.
  destruct (is_continuation c); cbn [fst snd str_join String.append];
    now rewrite IH.
Qed.

(** Iterating a string cuts it into pieces: put one after the other, the
    items are the string. *)
Lemma chars_join (s : string) : str_join (chars s) = s.
Proof.
  unfold chars. pose proof (code_points_join s) as H.
  destruct (code_points s) as [continuation items]. cbn [fst snd] in H.
  destruct continuation; exact H.
Qed.

Lemma is_ascii_char_no_continuation (c : ascii) :
  is_ascii_char c = true -> is_continuation c = false.
Proof.
  unfold is_ascii_char, is_continuation. intros H.
  apply Nat.ltb_lt in H. apply andb_false_intro1. apply Nat.leb_gt. exact H.
Qed.

Lemma code_points_ascii (s : string) :
  is_ascii s = true ->
  code_points s
  = (EmptyString,
     map (fun c => VStr (String c EmptyString)) (list_ascii_of_string s)).
Proof.
  induction s as [|c s IH]; [reflexivity|].
  cbn [is_ascii]. intros H. apply andb_prop in H. destruct H as [Hc Hs].
  cbn [code_points list_ascii_of_string map]. rewrite (IH Hs).
  now rewrite (is_ascii_char_no_continuation c Hc).
Qed.

(** The items of an ASCII string are its bytes. *)
Lemma chars_ascii (s : string) :
  is_ascii s = true ->
  chars s = map (fun c => VStr (String c EmptyString)) (list_ascii_of_string s).
Proof.
  intros H. unfold chars. now rewrite (code_points_ascii s H).
Qed.

(** A character of two bytes is one item. *)
Example chars_two_bytes : chars "é" = [VStr "é"].
Proof. reflexivity. Qed.

(** A [str] given for the tags of a reference is read character by
    character: the one character of ["é"] is the name of a tag, and the
    catalog is returned. *)
Example load_dict_tags_given_as_str :
  load_dict mapping_with_accented_tag = Ok catalog_with_accented_tag.
Proof. reflexivity. Qed.

(** ** The loader: what the elements are built from *)

Lemma py_eq_congr {A : Type} `{PyLawful A} (a b c : A) :
  py_hashable a = true -> py_hashable b = true -> py_hashable c = true ->
  py_eq a b = true -> py_eq a c = py_eq b c.
Proof.
  intros Ha Hb Hc Hab. apply Bool.eq_iff_eq_true. split; intros Hx.
  - apply (py_eq_trans b a c); try assumption. now rewrite py_eq_sym.
  - now apply (py_eq_trans a b c).
Qed.

Lemma dict_lookup_store_value {V : Type} (k k' : value) (v : V)
  (d : list (value * V)) :
  Forall (fun kv => py_hashable (fst kv) = true) d ->
  py_hashable k' = true -> py_hashable k = true ->
  dict_lookup k (dict_store k' v d)
  = if py_eq k' k then Some v else dict_lookup k d.
Proof.
  intros Hd Hk' Hk. induction d as [|[k0 v0] d IH];
    cbn [dict_store dict_lookup]; [reflexivity|].
  inversion Hd as [|kv d' Hk0 Hd']; subst. cbn [fst] in Hk0.
  destruct (py_eq k0 k') eqn:E0; cbn [dict_lookup].
  - rewrite (py_eq_congr k0 k' k) by assumption.
    now destruct (py_eq k' k).
  - rewrite (IH Hd'). destruct (py_eq k0 k) eqn:E1; [|reflexivity].
    destruct (py_eq k' k) eqn:E2; [|reflexivity].
    assert (py_eq k0 k' = true).
    { apply (py_eq_trans k0 k k'); try assumption. now rewrite py_eq_sym. }
    congruence.
Qed.

Lemma dict_store_keys_hashable {V : Type} (k' : value) (v : V)
  (d : list (value * V)) :
  Forall (fun kv => py_hashable (fst kv) = true) d ->
  py_hashable k' = true ->
  Forall (fun kv => py_hashable (fst kv) = true) (dict_store k' v d).
Proof.
  intros Hd Hk'. induction d as [|[k0 v0] d IH]; cbn [dict_store].
  - now repeat constructor.
  - inversion Hd as [|kv d' Hk0 Hd']; subst.
    destruct (py_eq k0 k'); constructor; auto.
Qed.

(** An index built by key gives, for a key, the last element of the list
    that has an equal key. *)
Lemma dict_by_lookup_last {V : Type} (key : V -> value) (l : list V)
  (d idx : list (value * V)) (k : value) :
  Forall (fun kv => py_hashable (fst kv) = true) d ->
  py_hashable k = true ->
  dict_by key l d = Ok idx ->
  dict_lookup k idx
  = match last_with_key key k l with
    | Some x => Some x
    | None => dict_lookup k d
    end.
Proof.
  unfold last_with_key. revert d.
  induction l as [|x l IH]; intros d Hd Hk Hrun.
  - cbn in Hrun. now injection Hrun as <-.
  - cbn [dict_by] in Hrun. invert_bind Hrun as u Hu.
    unfold py_hash in Hu.
    destruct (py_hashable (key x)) eqn:Hx; [|discriminate].
    rewrite (IH _ (dict_store_keys_hashable _ x d Hd Hx) Hk Hrun).
    cbn [rev]. rewrite find_snoc.
    destruct (find (fun y => py_eq (key y) k) (rev l)); [reflexivity|].
    rewrite dict_lookup_store_value by assumption.
    now destruct (py_eq (key x) k).
Qed.

Lemma select_tag_group_slots (d kwargs : dict) (name description : value) :
  select_slots TagGroup.__slots__ d [] = Ok kwargs ->
  getitem "name" kwargs = Ok name ->
  getitem "description" kwargs = Ok description ->
  dict_lookup "name" d = Some name
  /\ dict_lookup "description" d = Some description.
Proof.
  unfold TagGroup.__slots__. cbn [select_slots]. intros Hk Hn Hd.
  invert_bind Hk as v1 H1. invert_bind Hk as v2 H2. injection Hk as <-.
  apply getitem_ok in H1, H2. cbn in Hn, Hd.
  injection Hn as <-. injection Hd as <-. now split.
Qed.

Lemma build_tag_groups_from (ds : list dict) (tag_groups built : list TagGroup.t) :
  build_tag_groups ds tag_groups = Ok built ->
  exists gs, built = tag_groups ++ gs /\ Forall2 tag_group_from ds gs.
Proof.
  revert tag_groups. induction ds as [|d ds IH]; intros tag_groups Hrun.
  - cbn in Hrun. injection Hrun as <-. exists []. rewrite app_nil_r.
    split; [reflexivity | constructor].
  - cbn [build_tag_groups] in Hrun.
    invert_bind Hrun as u Hu. invert_bind Hrun as kwargs Hk.
    invert_bind Hrun as name Hn. invert_bind Hrun as description Hd.
    destruct (select_tag_group_slots _ _ _ _ Hk Hn Hd) as [Ln Ld].
    apply IH in Hrun. destruct Hrun as (gs & -> & Hgs).
    exists (TagGroup.make name description :: gs).
    rewrite <- app_assoc. split; [reflexivity|].
    constructor; [now split | assumption].
Qed.

(** X19: the tag groups of a catalog that [load_dict] returns are the
    default group followed by one group for each tag-group dict of the
    input, in order, with the name and the description of the dict. *)
Theorem load_dict_tag_groups (tori_dict : dict) (c : TORI.t)
  (tag_group_dicts tag_dicts reference_dicts : list dict) :
  load_dict tori_dict = Ok c ->
  top_level_lists tori_dict = Ok (tag_group_dicts, tag_dicts, reference_dicts) ->
  exists gs,
    TORI.tag_groups c = DEFAULT_TAG_GROUP :: gs
    /\ Forall2 tag_group_from tag_group_dicts gs.
Proof.
  intros Hrun Hlists. apply load_dict_stages in Hrun.
  destruct Hrun as (tgd & td & rd & tag_groups & tgm & tags & tm & refs
                    & Hlists' & Htg & _ & _ & _ & _ & ->).
  rewrite Hlists in Hlists'. injection Hlists' as <- <- <-.
  apply build_tag_groups_from in Htg. destruct Htg as (gs & -> & Hgs).
  now exists gs.
Qed.

Lemma load_dict_tag_groups_witness :
  exists gs,
    TORI.tag_groups sample_catalog = DEFAULT_TAG_GROUP :: gs
    /\ Forall2 tag_group_from
               [[("name", VStr "g"); ("description", VStr "a group")]] gs.
Proof.
  apply (load_dict_tag_groups sample_mapping sample_catalog _ _ _ eq_refl
                              eq_refl).
Defined.

Lemma getitem_value_ok {V : Type} (k : value) (d : list (value * V)) (v : V) :
  getitem_value k d = Ok v ->
  py_hashable k = true /\ dict_lookup k d = Some v.
Proof.
  unfold getitem_value, py_hash.
  destruct (py_hashable k); cbn; [|discriminate].
  destruct (dict_lookup k d); [|discriminate].
  intros Hv. injection Hv as <-. now split.
Qed.

Lemma select_tag_slots (d kwargs : dict) (name description : value) :
  select_slots Tag.__slots__ d [] = Ok kwargs ->
  getitem "name" kwargs = Ok name ->
  getitem "description" kwargs = Ok description ->
  dict_lookup "name" d = Some name
  /\ dict_lookup "description" d = Some description.
Proof.
  unfold Tag.__slots__. cbn [select_slots]. intros Hk Hn Hd.
  invert_bind Hk as v1 H1. invert_bind Hk as v2 H2.
  invert_bind Hk as v3 H3. injection Hk as <-.
  apply getitem_ok in H1, H2. cbn in Hn, Hd.
  injection Hn as <-. injection Hd as <-. now split.
Qed.

Lemma build_tags_from (tag_group_map : list (value * TagGroup.t))
  (ds : list dict) (tags built : list Tag.t) :
  build_tags tag_group_map ds tags = Ok built ->
  exists ts,
    built = tags ++ ts
    /\ Forall2 (fun d t =>
                  dict_lookup "name" d = Some (Tag.name t)
                  /\ dict_lookup "description" d = Some (Tag.description t)
                  /\ exists tag_group,
                       dict_lookup "group" d = Some tag_group
                       /\ py_hashable tag_group = true
                       /\ dict_lookup tag_group tag_group_map
                          = Some (Tag.group t))
               ds ts.
Proof.
  revert tags. induction ds as [|d ds IH]; intros tags Hrun.
  - cbn in Hrun. injection Hrun as <-. exists []. rewrite app_nil_r.
    split; [reflexivity | constructor].
  - cbn [build_tags] in Hrun.
    invert_bind Hrun as u Hu. invert_bind Hrun as tag_group Hg.
    invert_bind Hrun as known Hknown. invert_bind Hrun as u' Hcheck.
    invert_bind Hrun as kwargs Hkw. invert_bind Hrun as g Hgroup.
    invert_bind Hrun as name Hn. invert_bind Hrun as description Hd.
    destruct (select_tag_slots _ _ _ _ Hkw Hn Hd) as [Ln Ld].
    apply getitem_ok in Hg. apply getitem_value_ok in Hgroup.
    destruct Hgroup as [Hh Hfound].
    apply IH in Hrun. destruct Hrun as (ts & -> & Hts).
    exists (Tag.make name description g :: ts).
    rewrite <- app_assoc. split; [reflexivity|].
    constructor; [|assumption]. cbn. repeat split; try assumption.
    now exists tag_group.
Qed.

(** X20: the tags of a catalog that [load_dict] returns are one tag for
    each tag dict of the input, in order, with the name and the description
    of the dict; the group of the tag is a tag group of the catalog, the
    last one whose name equals the [group] of the dict. *)
Theorem load_dict_tags (tori_dict : dict) (c : TORI.t)
  (tag_group_dicts tag_dicts reference_dicts : list dict) :
  load_dict tori_dict = Ok c ->
  top_level_lists tori_dict = Ok (tag_group_dicts, tag_dicts, reference_dicts) ->
  Forall2 (tag_from (TORI.tag_groups c)) tag_dicts (TORI.tags c)
  /\ Forall (fun t => In (Tag.group t) (TORI.tag_groups c)) (TORI.tags c).
Proof.
  intros Hrun Hlists. apply load_dict_stages in Hrun.
  destruct Hrun as (tgd & td & rd & tag_groups & tgm & tags & tm & refs
                    & Hlists' & Htg & Htgm & Htags & _ & _ & ->).
  rewrite Hlists in Hlists'. injection Hlists' as <- <- <-.
  cbn [TORI.__init__ TORI._set_keys TORI.tag_groups TORI.tags].
  apply build_tags_from in Htags. destruct Htags as (ts & -> & Hts).
  cbn [app].
  assert (Hfrom : Forall2 (tag_from tag_groups) tag_dicts ts).
  { eapply Forall2_impl; [|exact Hts].
    intros d t (Hn & Hd & gv & Hg & Hh & Hfound).
    repeat split; try assumption. exists gv. split; [assumption|].
    rewrite (dict_by_lookup_last _ _ [] _ gv (Forall_nil _) Hh Htgm)
      in Hfound.
    now destruct (last_with_key TagGroup.name gv tag_groups). }
  split; [exact Hfrom|].
  clear Hts Hlists. induction Hfrom as [|d t ds ts' Hdt _ IH];
    [constructor|]. constructor; [|exact IH].
  destruct Hdt as (_ & _ & gv & _ & Hlast).
  unfold last_with_key in Hlast. apply find_some in Hlast.
  apply in_rev. apply Hlast.
Qed.

Lemma load_dict_tags_witness :
  Forall2 (tag_from (TORI.tag_groups sample_catalog))
          [[("name", VStr "t"); ("description", VStr "a tag");
            ("group", VStr "g")]]
          (TORI.tags sample_catalog)
  /\ Forall (fun t => In (Tag.group t) (TORI.tag_groups sample_catalog))
            (TORI.tags sample_catalog).
Proof.
  apply (load_dict_tags sample_mapping sample_catalog _ _ _ eq_refl eq_refl).
Defined.

Lemma resolve_tags_from (tag_map : list (value * Tag.t)) (reference_dict : dict)
  (items : list value) (reference_tags resolved : list Tag.t) :
  resolve_tags tag_map reference_dict items reference_tags = Ok resolved ->
  exists ts,
    resolved = reference_tags ++ ts
    /\ Forall2 (fun raw_tag t =>
                  py_hashable raw_tag = true
                  /\ dict_lookup raw_tag tag_map = Some t)
               items ts.
Proof.
  revert reference_tags.
  induction items as [|x items IH]; intros reference_tags Hrun.
  - cbn in Hrun. injection Hrun as <-. exists []. rewrite app_nil_r.
    split; [reflexivity | constructor].
  - cbn [resolve_tags] in Hrun.
    invert_bind Hrun as known Hknown. invert_bind Hrun as u Hcheck.
    invert_bind Hrun as tag Htag. apply getitem_value_ok in Htag.
    apply IH in Hrun. destruct Hrun as (ts & -> & Hts).
    exists (tag :: ts). rewrite <- app_assoc. split; [reflexivity|].
    now constructor.
Qed.

Lemma select_reference_slots (d kwargs : dict) (title author url : value) :
  select_slots Reference.__slots__ d [] = Ok kwargs ->
  getitem "title" kwargs = Ok title ->
  getitem "author" kwargs = Ok author ->
  getitem "url" kwargs = Ok url ->
  dict_lookup "title" d = Some title
  /\ dict_lookup "author" d = Some author
  /\ dict_lookup "url" d = Some url.
Proof.
  unfold Reference.__slots__, Reference.__required_slots__,
    Reference.__optional_slots__.
  cbn [app select_slots]. intros Hk Ht Ha Hu.
  invert_bind Hk as v1 H1. invert_bind Hk as v2 H2.
  invert_bind Hk as v3 H3. invert_bind Hk as v4 H4. injection Hk as <-.
  apply getitem_ok in H1, H2, H4. cbn in Ht, Ha, Hu.
  injection Ht as <-. injection Ha as <-. injection Hu as <-.
  now repeat split.
Qed.

Lemma build_references_from (tag_map : list (value * Tag.t))
  (ds : list dict) (references built : list Reference.t) :
  build_references tag_map ds references = Ok built ->
  exists rs,
    built = references ++ rs
    /\ Forall2 (fun d r =>
                  dict_lookup "title" d = Some (Reference.title r)
                  /\ dict_lookup "url" d = Some (Reference.url r)
                  /\ (exists author,
                         dict_lookup "author" d = Some author
                         /\ authors_of author = Ok (Reference.author r))
                  /\ exists raw_tags items,
                       dict_lookup "tags" d = Some raw_tags
                       /\ py_iter raw_tags = Ok items
                       /\ Forall2 (fun raw_tag t =>
                                     py_hashable raw_tag = true
                                     /\ dict_lookup raw_tag tag_map = Some t)
                                  items (Reference.tags r))
               ds rs.
Proof.
  revert references. induction ds as [|d ds IH]; intros references Hrun.
  - cbn in Hrun. injection Hrun as <-. exists []. rewrite app_nil_r.
    split; [reflexivity | constructor].
  - cbn [build_references] in Hrun.
    invert_bind Hrun as u Hu. invert_bind Hrun as raw_tags Hraw.
    invert_bind Hrun as items Hitems. invert_bind Hrun as resolved Hres.
    invert_bind Hrun as kwargs Hkw. invert_bind Hrun as title Ht.
    invert_bind Hrun as author Ha. invert_bind Hrun as url Hurl.
    invert_bind Hrun as reference Hr.
    destruct (select_reference_slots _ _ _ _ _ Hkw Ht Ha Hurl)
      as (Lt & La & Lu).
    apply getitem_ok in Hraw.
    apply resolve_tags_from in Hres. destruct Hres as (ts & -> & Hts).
    cbn [app] in Hr. unfold Reference.__init__ in Hr.
    change (match author with
            | VStr _ => Ok [author]
            | _ => py_iter author
            end) with (authors_of author) in Hr.
    invert_bind Hr as authors Hauthors. cbn in Hr. injection Hr as <-.
    apply IH in Hrun. destruct Hrun as (rs & -> & Hrs).
    eexists (_ :: rs). rewrite <- app_assoc. split; [reflexivity|].
    constructor; [|assumption]. cbn.
    repeat split; try assumption.
    + now exists author.
    + now exists raw_tags, items.
Qed.

(** X21: the references of a catalog that [load_dict] returns are one
    reference for each reference dict of the input, in order, with the title
    and the url of the dict; a string [author] gives one author, a list its
    elements; the tags are tags of the catalog, for each name of [tags] the
    last tag that has the name. *)
Theorem load_dict_references (tori_dict : dict) (c : TORI.t)
  (tag_group_dicts tag_dicts reference_dicts : list dict) :
  load_dict tori_dict = Ok c ->
  top_level_lists tori_dict = Ok (tag_group_dicts, tag_dicts, reference_dicts) ->
  Forall2 (reference_from (TORI.tags c)) reference_dicts (TORI.references c)
  /\ Forall (fun r => Forall (fun t => In t (TORI.tags c)) (Reference.tags r))
            (TORI.references c).
Proof.
  intros Hrun Hlists. apply load_dict_stages in Hrun.
  destruct Hrun as (tgd & td & rd & tag_groups & tgm & tags & tm & refs
                    & Hlists' & _ & _ & _ & Htm & Hrefs & ->).
  rewrite Hlists in Hlists'. injection Hlists' as <- <- <-.
  cbn [TORI.__init__ TORI._set_keys TORI.tags TORI.references].
  apply build_references_from in Hrefs. destruct Hrefs as (rs & -> & Hrs).
  cbn [app].
  assert (Hfrom : Forall2 (reference_from tags) reference_dicts rs).
  { eapply Forall2_impl; [|exact Hrs].
    intros d r (Ht & Hu & Ha & raw & items & Hraw & Hiter & Hres).
    repeat split; try assumption. exists raw, items.
    repeat split; try assumption.
    eapply Forall2_impl; [|exact Hres].
    intros x t [Hh Hfound].
    rewrite (dict_by_lookup_last _ _ [] _ x (Forall_nil _) Hh Htm) in Hfound.
    now destruct (last_with_key Tag.name x tags). }
  split; [exact Hfrom|].
  clear Hrs Hlists. induction Hfrom as [|d r ds rs' Hdr _ IH];
    [constructor|]. constructor; [|exact IH].
  destruct Hdr as (_ & _ & _ & raw & items & _ & _ & Hres).
  induction Hres as [|x t xs ts Hxt _ IHres]; [constructor|].
  constructor; [|exact IHres].
  unfold last_with_key in Hxt. apply find_some in Hxt.
  apply in_rev. apply Hxt.
Qed.

Lemma load_dict_references_witness :
  Forall2 (reference_from (TORI.tags sample_catalog))
          [[("title", VStr "r"); ("author", VStr "a");
            ("tags", VList [VStr "t"]); ("url", VNone)]]
          (TORI.references sample_catalog)
  /\ Forall (fun r => Forall (fun t => In t (TORI.tags sample_catalog))
                             (Reference.tags r))
            (TORI.references sample_catalog).
Proof.
  apply (load_dict_references sample_mapping sample_catalog _ _ _ eq_refl
                              eq_refl).
Defined.

(** ** The loader: keys that are not slots *)

Lemma require_keys_agree (missing : string -> parse_message)
  (slots : list string) (d d' : dict) :
  agree_on slots d d' ->
  require_keys missing slots d = require_keys missing slots d'.
Proof.
  induction slots as [|key slots IH]; intros Hag; cbn; [reflexivity|].
  rewrite <- (Hag key) by now left.
  rewrite IH; [reflexivity|]. intros k Hk. apply Hag. now right.
Qed.

Lemma select_slots_agree (slots : list string) (d d' kwargs : dict) :
  agree_on slots d d' ->
  select_slots slots d kwargs = select_slots slots d' kwargs.
Proof.
  revert kwargs. induction slots as [|slot slots IH]; intros kwargs Hag; cbn;
    [reflexivity|].
  unfold getitem. rewrite <- (Hag slot) by now left.
  destruct (dict_lookup slot d); cbn; [|reflexivity].
  apply IH. intros k Hk. apply Hag. now right.
Qed.

Lemma getitem_agree (slots : list string) (key : string) (d d' : dict) :
  agree_on slots d d' -> In key slots -> getitem key d = getitem key d'.
Proof. intros Hag Hk. unfold getitem. now rewrite (Hag key Hk). Qed.

Lemma build_tag_groups_agree (ds ds' : list dict)
  (tag_groups : list TagGroup.t) :
  Forall2 (agree_on TagGroup.__slots__) ds ds' ->
  build_tag_groups ds tag_groups = build_tag_groups ds' tag_groups.
Proof.
  intros Hall. revert tag_groups.
  induction Hall as [|d d' ds ds' Hag _ IH]; intros tag_groups;
    [reflexivity|].
  cbn [build_tag_groups].
  rewrite (require_keys_agree _ _ d d' Hag).
  rewrite (select_slots_agree _ d d' [] Hag).
  destruct (require_keys _ _ d'); cbn [bind]; [|reflexivity].
  destruct (select_slots _ d' []); cbn [bind]; [|reflexivity].
  destruct (getitem "name" a0); cbn [bind]; [|reflexivity].
  destruct (getitem "description" a0); cbn [bind]; [|reflexivity].
  apply IH.
Qed.

Lemma build_tags_agree (tag_group_map : list (value * TagGroup.t))
  (ds ds' : list dict) (tags : list Tag.t) :
  Forall2 (agree_on Tag.__slots__) ds ds' ->
  build_tags tag_group_map ds tags = build_tags tag_group_map ds' tags.
Proof.
  intros Hall. revert tags.
  induction Hall as [|d d' ds ds' Hag _ IH]; intros tags; [reflexivity|].
  cbn [build_tags].
  rewrite (require_keys_agree _ _ d d' Hag).
  rewrite (select_slots_agree _ d d' [] Hag).
  rewrite (getitem_agree _ "group" d d' Hag) by (cbn; tauto).
  rewrite (getitem_agree _ "name" d d' Hag) by (cbn; tauto).
  repeat match goal with
         | |- bind ?m _ = bind ?m _ => destruct m; cbn [bind]; [|reflexivity]
         end.
  apply IH.
Qed.

Lemma resolve_tags_agree (tag_map : list (value * Tag.t)) (d d' : dict)
  (items : list value) (reference_tags : list Tag.t) :
  agree_on Reference.__slots__ d d' ->
  resolve_tags tag_map d items reference_tags
  = resolve_tags tag_map d' items reference_tags.
Proof.
  intros Hag. revert reference_tags.
  induction items as [|x items IH]; intros reference_tags; [reflexivity|].
  cbn [resolve_tags].
  rewrite (getitem_agree _ "title" d d' Hag) by (cbn; tauto).
  repeat match goal with
         | |- bind ?m _ = bind ?m _ => destruct m; cbn [bind]; [|reflexivity]
         end.
  apply IH.
Qed.

Lemma build_references_agree (tag_map : list (value * Tag.t))
  (ds ds' : list dict) (references : list Reference.t) :
  Forall2 (agree_on Reference.__slots__) ds ds' ->
  build_references tag_map ds references
  = build_references tag_map ds' references.
Proof.
  intros Hall. revert references.
  induction Hall as [|d d' ds ds' Hag _ IH]; intros references;
    [reflexivity|].
  cbn [build_references].
  rewrite (require_keys_agree _ Reference.__required_slots__ d d').
  2:{ intros k Hk. apply Hag. unfold Reference.__slots__.
      apply in_or_app. now left. }
  rewrite (select_slots_agree _ d d' [] Hag).
  rewrite (getitem_agree _ "tags" d d' Hag) by (cbn; tauto).
  destruct (require_keys _ _ d'); cbn [bind]; [|reflexivity].
  destruct (getitem "tags" d'); cbn [bind]; [|reflexivity].
  destruct (py_iter a0); cbn [bind]; [|reflexivity].
  rewrite (resolve_tags_agree tag_map d d' _ _ Hag).
  repeat match goal with
         | |- bind ?m _ = bind ?m _ => destruct m; cbn [bind]; [|reflexivity]
         end.
  apply IH.
Qed.

(** X22: [load_dict] reads of an element dict its slots only: two inputs
    whose tag-group, tag and reference dicts give the same for every slot
    are loaded alike, to the same catalog or the same error, whatever other
    keys the dicts have. *)
Theorem load_dict_ignores_other_keys (tori_dict tori_dict' : dict)
  (tag_group_dicts tag_dicts reference_dicts : list dict)
  (tag_group_dicts' tag_dicts' reference_dicts' : list dict) :
  top_level_lists tori_dict = Ok (tag_group_dicts, tag_dicts, reference_dicts) ->
  top_level_lists tori_dict'
  = Ok (tag_group_dicts', tag_dicts', reference_dicts') ->
  Forall2 (agree_on TagGroup.__slots__) tag_group_dicts tag_group_dicts' ->
  Forall2 (agree_on Tag.__slots__) tag_dicts tag_dicts' ->
  Forall2 (agree_on Reference.__slots__) reference_dicts reference_dicts' ->
  load_dict tori_dict = load_dict tori_dict'.
Proof.
  intros Hl Hl' Hg Ht Hr. unfold load_dict. rewrite Hl, Hl'. cbn [bind].
  rewrite (build_tag_groups_agree _ _ _ Hg).
  destruct (build_tag_groups tag_group_dicts' _); cbn [bind]; [|reflexivity].
  destruct (dict_by TagGroup.name a []); cbn [bind]; [|reflexivity].
  rewrite (build_tags_agree _ _ _ _ Ht).
  destruct (build_tags a0 tag_dicts' []); cbn [bind]; [|reflexivity].
  destruct (dict_by Tag.name a1 []); cbn [bind]; [|reflexivity].
  now rewrite (build_references_agree _ _ _ _ Hr).
Qed.

Lemma load_dict_ignores_other_keys_witness :
  load_dict sample_mapping = load_dict sample_mapping_with_notes.
Proof.
  apply (load_dict_ignores_other_keys
           sample_mapping sample_mapping_with_notes _ _ _ _ _ _
           eq_refl eq_refl);
    repeat constructor;
    intros key Hkey; cbn in Hkey;
    repeat (destruct Hkey as [<-|Hkey]; [reflexivity|]); destruct Hkey.
Defined.

(** ** Loading several files *)

Lemma dict_update_lookup (d other : dict) (k : string) :
  NoDup (map fst other) ->
  dict_lookup k (dict_update d other)
  = match dict_lookup k other with
    | Some v => Some v
    | None => dict_lookup k d
    end.
Proof.
  unfold dict_update. revert d.
  induction other as [|[k0 v0] other IH]; intros d Hnd; [reflexivity|].
  cbn [map fst] in Hnd. apply NoDup_cons_iff in Hnd. destruct Hnd as [Hk0 Hnd].
  cbn [fold_left fst snd]. rewrite (IH _ Hnd), dict_lookup_store_str.
  cbn [dict_lookup]. change (py_eq k0 k) with (k0 =? k)%string.
  destruct (k0 =? k)%string eqn:E; [|reflexivity].
  apply String.eqb_eq in E. subst k0.
  destruct (dict_lookup k other) as [v|] eqn:El; [|reflexivity].
  exfalso. apply Hk0. clear - El.
  induction other as [|[k1 v1] other IH]; [discriminate|].
  cbn in El |- *. destruct (k1 =? k)%string eqn:E1.
  - left. now apply String.eqb_eq.
  - right. now apply IH.
Qed.

(** X23: the files are merged key by key: what the merged mapping holds for
    a top-level key is what the last file that has the key holds for it, as
    a whole; the value of an earlier file is dropped, not extended. *)
Theorem merge_files_last_wins (files : list dict) (last : dict) (k : string) :
  NoDup (map fst last) ->
  dict_lookup k (merge_files (files ++ [last]))
  = match dict_lookup k last with
    | Some v => Some v
    | None => dict_lookup k (merge_files files)
    end.
Proof.
  intros Hnd. unfold merge_files. rewrite fold_left_app. cbn [fold_left].
  now apply dict_update_lookup.
Qed.

Lemma merge_files_last_wins_witness :
  dict_lookup "tags" (merge_files ([first_file] ++ [second_file]))
  = match dict_lookup "tags" second_file with
    | Some v => Some v
    | None => dict_lookup "tags" (merge_files [first_file])
    end.
Proof.
  apply (merge_files_last_wins [first_file] second_file "tags").
  repeat constructor. intros [].
Defined.

Lemma dict_store_fresh {V : Type} (k : string) (v : V)
  (d : list (string * V)) :
  ~ In k (map fst d) -> dict_store k v d = d ++ [(k, v)].
Proof.
  induction d as [|[k0 v0] d IH]; cbn; [reflexivity|].
  intros Hk. destruct (k0 =? k)%string eqn:E.
  - apply String.eqb_eq in E. tauto.
  - rewrite IH; [reflexivity | tauto].
Qed.

Lemma dict_update_fresh (d other : dict) :
  NoDup (map fst (d ++ other)) -> dict_update d other = d ++ other.
Proof.
  unfold dict_update. revert d.
  induction other as [|[k0 v0] other IH]; intros d Hnd; cbn [fold_left].
  - now rewrite app_nil_r.
  - cbn [fst snd]. rewrite dict_store_fresh.
    + rewrite IH; rewrite <- app_assoc; [reflexivity | exact Hnd].
    + rewrite map_app in Hnd. cbn [map fst] in Hnd.
      apply NoDup_remove_2 in Hnd. intros Hin. apply Hnd.
      apply in_or_app. now left.
Qed.

(** X24: loading one file is loading its mapping: the merge of a single
    mapping is the mapping itself. *)
Theorem load_files_single (d : dict) :
  NoDup (map fst d) ->
  merge_files [d] = d /\ load_files [d] = load_dict d.
Proof.
  intros Hnd.
  assert (Hm : merge_files [d] = d).
  { unfold merge_files. cbn [fold_left]. now rewrite dict_update_fresh. }
  split; [exact Hm|]. unfold load_files. now rewrite Hm.
Qed.

Lemma load_files_single_witness :
  merge_files [sample_mapping] = sample_mapping
  /\ load_files [sample_mapping] = load_dict sample_mapping.
Proof.
  apply (load_files_single sample_mapping).
  repeat (constructor; [cbn; intuition discriminate|]). constructor.
Defined.

(** ** Keys and validation *)

Lemma validate_valid (c : TORI.t) :
  valid_catalog c ->
  TORI.validate false c
  = TORI.Returned (TORI.Valid true) (TORI.set_errors [] c).
Proof.
  intros (U1 & A2 & U2 & A3 & U3). unfold TORI.validate.
  rewrite (mbind_returned _ _ c tt (TORI.set_errors [] c)) by reflexivity.
  set (c0 := TORI.set_errors [] c).
  rewrite (mbind_returned _ _ c0 true c0)
    by now apply validate_tag_groups_strict.
  rewrite (mbind_returned _ _ c0 true c0) by now apply validate_tags_strict.
  rewrite (mbind_returned _ _ c0 true c0)
    by now apply validate_references_strict.
  reflexivity.
Qed.

(** Elements whose keys are pairwise different are pairwise different. *)
Lemma pairwise_distinct_by_key {V : Type} `{PyObject V} (key : V -> value)
  (l : list V) :
  (forall x y, py_eq (key x) (key y) = false -> py_eq x y = false) ->
  pairwise_distinct (map key l) -> pairwise_distinct l.
Proof.
  intros Hkey Hd i j x y Hij Hx Hy. apply Hkey.
  apply (Hd i j); [assumption| |]; rewrite nth_error_map.
  - now rewrite Hx.
  - now rewrite Hy.
Qed.

(** X25: a catalog passes [validate()] when its tag groups have pairwise
    different names, its tags pairwise different names and its references
    pairwise different titles, the attributes hash, no tag lacks its name or
    description and no reference its title or authors. *)
Theorem validate_passes_with_distinct_keys (c : TORI.t) :
  forallb py_hashable (TORI.tag_groups c) = true ->
  forallb py_hashable (TORI.tags c) = true ->
  forallb py_hashable (TORI.references c) = true ->
  existsb tag_lacks_attribute (TORI.tags c) = false ->
  existsb reference_lacks_attribute (TORI.references c) = false ->
  pairwise_distinct (map TagGroup.name (TORI.tag_groups c)) ->
  pairwise_distinct (map Tag.name (TORI.tags c)) ->
  pairwise_distinct (map Reference.title (TORI.references c)) ->
  TORI.validate false c
  = TORI.Returned (TORI.Valid true) (TORI.set_errors [] c).
Proof.
  intros Hg Ht Hr Hta Hra Dg Dt Dr. apply validate_valid.
  repeat split; try assumption.
  - apply (pairwise_distinct_by_key TagGroup.name); [|assumption].
    intros x y Hxy. cbn [py_eq PyObject_TagGroup]. unfold TagGroup.__eq__.
    now rewrite Hxy.
  - apply (pairwise_distinct_by_key Tag.name); [|assumption].
    intros x y Hxy. cbn [py_eq PyObject_Tag]. unfold Tag.__eq__.
    now rewrite Hxy.
  - apply (pairwise_distinct_by_key Reference.title); [|assumption].
    intros x y Hxy. cbn [py_eq PyObject_Reference]. unfold Reference.__eq__.
    now rewrite Hxy.
Qed.

Lemma validate_passes_with_distinct_keys_witness :
  TORI.validate false sample_catalog
  = TORI.Returned (TORI.Valid true) (TORI.set_errors [] sample_catalog).
Proof.
  apply (validate_passes_with_distinct_keys sample_catalog);
    try reflexivity;
    intros [|[|i]] [|[|j]] x y Hij Hx Hy; cbn in Hx, Hy;
    try discriminate; try (now destruct i); try (now destruct j);
    try (now elim Hij);
    injection Hx as <-; injection Hy as <-; reflexivity.
Defined.
